(** * cx-bot: entitlement ledger, look-transfer parameters, progress relay

    A shallow embedding of the parts of [src/bot.py] that carry the
    invariants of the design: the per-user entitlement ledger kept in
    [user_store.json], the colour-grading parameter computation and the
    transcoder invocation, the debounced progress hook and the payment
    handler.

    Conventions of the embedding.
    - A decoded JSON document is a [json] value; a Python [dict] with string
      keys is a [gmap string json].  [rec.get(k)] of a missing key is [None],
      which is [JNull] here.
    - Python [int] is [Z].  A Python [float] read from the store is a
      [pyfloat]: a finite value (an exact rational) or one of the non-finite
      values that [json.loads] also produces; [int()] of the latter raises.
    - The floats of the look-transfer pipeline and of the monotonic clock are
      finite and exact: rationals ([Q]).  A NaN or an infinity among the
      statistics, and the rounding of binary64 arithmetic, are not part of
      the model.
    - Code that can raise lives in the [result] monad; code that reads and
      writes the persisted store lives in the [ledger] monad, whose state is
      the mapping that [_load_user_store_sync] returns for the file.
    - The wall clock is an input: [now] stands for [int(time.time())] and
      [today] for the string [_today_key()] returns at the call. *)

From Stdlib Require Import ZArith QArith Qround Qabs Qminmax Lqa Lia Ascii.
From stdpp Require Import gmap strings pretty list sorting.

#[local] Set Warnings "-register-all,-clear-no-such-hyp".
#[local] Open Scope Z_scope.

(** ** Python values *)

Inductive pyfloat :=
| Finite (q : Q)
| NaN
| Inf (negative : bool).

Inductive json :=
| JNull
| JBool (b : bool)
| JInt (n : Z)
| JFloat (f : pyfloat)
| JStr (s : string)
| JArr (l : list json)
| JObj (m : gmap string json).

Inductive exn :=
| ValueError
| OverflowError
| JSONDecodeError
| OSError
| CalledProcessError (returncode : Z).

Inductive result (A : Type) :=
| Ok (a : A)
| Raise (e : exn).
Arguments Ok {A} a.
Arguments Raise {A} e.

#[global] Instance result_ret : MRet result := λ A a, Ok a.
#[global] Instance result_bind : MBind result := λ A B f m,
  match m with
  | Ok a => f a
  | Raise e => Raise e
  end.

(** [try: body / except Exception: handler]. *)
Definition try_except {A} (body : result A) (handler : exn → result A) : result A :=
  match body with
  | Ok a => Ok a
  | Raise e => handler e
  end.

(** The numbers among the values: [isinstance(v, (int, float))].  [bool] is
    a subclass of [int] in Python, so [True] and [False] pass the test. *)
Inductive pynum :=
| NInt (n : Z)
| NFloat (f : pyfloat).

Definition as_number (v : json) : option pynum :=
  match v with
  | JBool b => Some (NInt (if b then 1 else 0))
  | JInt n => Some (NInt n)
  | JFloat f => Some (NFloat f)
  | _ => None
  end.

(** [int(x)] of a number: identity on [int], truncation toward zero on a
    finite [float], [ValueError] on NaN and [OverflowError] on an infinity. *)
Definition py_int (x : pynum) : result Z :=
  match x with
  | NInt n => Ok n
  | NFloat (Finite q) => Ok (Z.quot (Qnum q) (Z.pos (Qden q)))
  | NFloat NaN => Raise ValueError
  | NFloat (Inf _) => Raise OverflowError
  end.

(** The recurring idiom [int(v) if isinstance(v, (int, float)) else d]. *)
Definition int_or (d : Z) (v : json) : result Z :=
  match as_number v with
  | Some x => py_int x
  | None => Ok d
  end.

(** Truth value of a decoded JSON value, as [if v:] tests it. *)
Definition truthy (v : json) : bool :=
  match v with
  | JNull => false
  | JBool b => b
  | JInt n => negb (n =? 0)
  | JFloat (Finite q) => negb (Qeq_bool q 0)
  | JFloat _ => true
  | JStr s => negb (String.eqb s "")
  | JArr l => match l with [] => false | _ => true end
  | JObj m => negb (bool_decide (dom m = ∅))
  end.

(** [v != s] for a string [s]: only an equal string compares equal. *)
Definition py_ne_str (v : json) (s : string) : bool :=
  match v with
  | JStr s' => negb (String.eqb s' s)
  | _ => true
  end.

(** [v == s] for a string [s]. *)
Definition py_eq_str (v : json) (s : string) : bool := negb (py_ne_str v s).

(** [rec.get(k)]. *)
Definition rec_get (rec : gmap string json) (k : string) : json :=
  default JNull (rec !! k).

(** [rec = store.get(key)] followed by
    [if not isinstance(rec, dict): rec = {}]. *)
Definition as_dict (v : option json) : gmap string json :=
  match v with
  | Some (JObj m) => m
  | _ => ∅
  end.

(** [str(user_id)]. *)
Definition str (n : Z) : string := pretty n.

(** ** The ledger monad

    The state is the persisted store.  [load_store] is
    [_load_user_store_sync] and [save_store] is [_save_user_store_sync]; an
    exception leaves the file as the last save left it. *)

Definition ledger (A : Type) : Type :=
  gmap string json → result A * gmap string json.

#[global] Instance ledger_ret : MRet ledger := λ A a disk, (Ok a, disk).
#[global] Instance ledger_bind : MBind ledger := λ A B f m disk,
  match m disk with
  | (Ok a, disk') => f a disk'
  | (Raise e, disk') => (Raise e, disk')
  end.

Definition load_store : ledger (gmap string json) := λ disk, (Ok disk, disk).
Definition save_store (store : gmap string json) : ledger unit := λ _, (Ok tt, store).
Definition lift {A} (r : result A) : ledger A := λ disk, (r, disk).

(** ** Constants *)

Definition PREMIUM_DURATION_SECONDS : Z := 30 * 24 * 60 * 60.
Definition FREE_EFFECTS_PER_DAY : Z := 2.
Definition AD_EVERY_SUCCESS_COUNT : Z := 5.

(** ** Entitlement ledger *)

Definition _is_premium_now (rec : gmap string json) (now : Z) : result bool :=
  match as_number (rec_get rec "premium_until") with
  | Some until => n ← py_int until; mret (now <? n)
  | None => mret false
  end.

Definition _get_credits (rec : gmap string json) : result Z :=
  match as_number (rec_get rec "credits") with
  | Some c => n ← py_int c; mret (if 0 <? n then n else 0)
  | None => mret 0
  end.

Definition _grant_premium (user_id seconds : Z) (now : Z) : ledger unit :=
  if seconds <=? 0 then mret tt else
  store ← load_store;
  let key := str user_id in
  let rec := as_dict (store !! key) in
  base ← lift (int_or 0 (rec_get rec "premium_until"));
  let base := if base <? now then now else base in
  let rec := <["premium_until" := JInt (base + seconds)]> rec in
  let store := <[key := JObj rec]> store in
  save_store store.

Definition _add_credits (user_id amount : Z) : ledger unit :=
  if amount <=? 0 then mret tt else
  store ← load_store;
  let key := str user_id in
  let rec := as_dict (store !! key) in
  cur ← lift (int_or 0 (rec_get rec "credits"));
  let rec := <["credits" := JInt (Z.max 0 (cur + amount))]> rec in
  let store := <[key := JObj rec]> store in
  save_store store.

Definition _plan_effect_entitlement (user_id : Z) (now : Z) (today : string)
  : ledger (option string) :=
  store ← load_store;
  let key := str user_id in
  let rec := as_dict (store !! key) in
  premium ← lift (_is_premium_now rec now);
  if premium : bool then mret (Some "premium") else
  let used_day := rec_get rec "effects_free_day" in
  let used_count := rec_get rec "effects_free_used" in
  let used_count := if py_ne_str used_day today then JInt 0 else used_count in
  used_count ← lift (int_or 0 used_count);
  if used_count <? FREE_EFFECTS_PER_DAY then mret (Some "free") else
  credits ← lift (_get_credits rec);
  if 0 <? credits then mret (Some "credit") else
  mret None.

(** [kind in ("premium", "free", "credit")]; [kind] may be [None]. *)
Definition known_kind (kind : option string) : bool :=
  match kind with
  | Some k => String.eqb k "premium" || String.eqb k "free" || String.eqb k "credit"
  | None => false
  end.

Definition kind_is (kind : option string) (k : string) : bool :=
  match kind with
  | Some k' => String.eqb k' k
  | None => false
  end.

Definition _finalize_effect_entitlement (user_id : Z) (kind : option string)
    (today : string) : ledger unit :=
  if negb (known_kind kind) then mret tt else
  if kind_is kind "premium" then mret tt else
  store ← load_store;
  let key := str user_id in
  let rec := as_dict (store !! key) in
  let used_day := rec_get rec "effects_free_day" in
  let used_count := rec_get rec "effects_free_used" in
  let '(used_day, used_count) :=
    if py_ne_str used_day today then (JStr today, JInt 0) else (used_day, used_count) in
  used_count ← lift (int_or 0 used_count);
  rec ← (if kind_is kind "free" then
           mret (<["effects_free_used" := JInt (used_count + 1)]>
                   (<["effects_free_day" := used_day]> rec))
         else if kind_is kind "credit" then
           credits ← lift (_get_credits rec);
           mret (<["credits" := JInt (Z.max 0 (credits - 1))]> rec)
         else mret rec);
  let store := <[key := JObj rec]> store in
  save_store store.

Definition _bump_success_and_should_show_ad (user_id : Z) : ledger bool :=
  if AD_EVERY_SUCCESS_COUNT <=? 0 then mret false else
  store ← load_store;
  let key := str user_id in
  let rec := as_dict (store !! key) in
  cnt ← lift (int_or 0 (rec_get rec "success_count"));
  let cnt := cnt + 1 in
  let rec := <["success_count" := JInt cnt]> rec in
  let store := <[key := JObj rec]> store in
  _ ← save_store store;
  mret (cnt `mod` AD_EVERY_SUCCESS_COUNT =? 0).

Definition _apply_referral (new_user_id ref_user_id : Z) : ledger bool :=
  if (new_user_id <=? 0) || (ref_user_id <=? 0) then mret false else
  if new_user_id =? ref_user_id then mret false else
  store ← load_store;
  let new_key := str new_user_id in
  let new_rec := as_dict (store !! new_key) in
  if truthy (rec_get new_rec "referred_by") then mret false else
  let new_rec := <["referred_by" := JStr (str ref_user_id)]> new_rec in
  let store := <[new_key := JObj new_rec]> store in
  let ref_key := str ref_user_id in
  let ref_rec := as_dict (store !! ref_key) in
  ref_count ← lift (int_or 0 (rec_get ref_rec "ref_count"));
  let ref_rec := <["ref_count" := JInt (ref_count + 1)]> ref_rec in
  ref_credits ← lift (_get_credits ref_rec);
  let ref_rec := <["credits" := JInt (ref_credits + 5)]> ref_rec in
  let store := <[ref_key := JObj ref_rec]> store in
  new_credits ← lift (_get_credits new_rec);
  let new_rec := <["credits" := JInt (new_credits + 2)]> new_rec in
  let store := <[new_key := JObj new_rec]> store in
  _ ← save_store store;
  mret true.

(** ** Payment handler

    The update carries what the handler reads: the message (or the effective
    message), the sending user and the payment's invoice payload.  The
    replies sent after the ledger call and [get_user_lang] do not touch the
    store and are left out. *)

Record payment := { invoice_payload : option string }.
Record message := { successful_payment : option payment }.
Record user := { id : Z }.
Record update := {
  upd_message : option message;
  effective_message : option message;
  effective_user : option user
}.

(** [s.split(sep)] for a one-character separator. *)
Fixpoint split_on (sep : ascii) (s : string) : list string :=
  match s with
  | EmptyString => [EmptyString]
  | String c rest =>
      if Ascii.eqb c sep then EmptyString :: split_on sep rest
      else match split_on sep rest with
           | h :: t => String c h :: t
           | [] => [String c EmptyString]
           end
  end.

(** [update.message or update.effective_message]. *)
Definition update_msg (upd : update) : option message :=
  match upd_message upd with
  | Some m => Some m
  | None => effective_message upd
  end.

Section Payment.

(** [int(parts[2])] on a string is Python's own parser: [None] when it
    raises. *)
Variable py_int_of_str : string → option Z.

Definition successful_payment_handler (upd : update) (now : Z) : ledger unit :=
  match update_msg upd, effective_user upd with
  | Some msg, Some sender =>
      match successful_payment msg with
      | None => mret tt
      | Some sp =>
          match invoice_payload sp with
          | None => mret tt
          | Some payload =>
              if negb (String.prefix "cx|" payload) then mret tt else
              let parts := split_on "|" payload in
              if (length parts <? 3)%nat then mret tt else
              let product := nth 1 parts EmptyString in
              let target_user_id :=
                match py_int_of_str (nth 2 parts EmptyString) with
                | Some n => n
                | None => id sender
                end in
              let target_user_id :=
                if negb (target_user_id =? id sender) then id sender
                else target_user_id in
              if String.eqb product "premium_30d" then
                _grant_premium target_user_id PREMIUM_DURATION_SECONDS now
              else if String.eqb product "credits_10" then
                _add_credits target_user_id 10
              else if String.eqb product "credits_50" then
                _add_credits target_user_id 50
              else mret tt
          end
      end
  | _, _ => mret tt
  end.

End Payment.

(** ** Durable record store: loading

    [store_file] is what the file system answers for [USER_STORE_PATH]:
    what [exists()] returns or raises and what [read_text] returns or
    raises.  [Path.exists()] answers [False] for a path that is not there
    (ENOENT, ENOTDIR, EBADF, ELOOP) and raises every other [OSError] of the
    underlying [stat], such as the [PermissionError] of a directory that
    denies search; [OSError] stands for the class and its subclasses.
    [json_loads] is the decoder of Python's [json] module. *)

Record store_file := {
  path_exists : result bool;
  read_text : result string
}.

Section RecordStore.

Variable json_loads : string → result json.

Definition _load_user_store_sync (f : store_file) : result (gmap string json) :=
  found ← path_exists f;
  if negb found then mret ∅ else
  try_except
    (raw ← read_text f;
     data ← (if negb (String.eqb raw "") then json_loads raw else mret (JObj ∅));
     mret (match data with
           | JObj m => m
           | _ => ∅
           end))
    (λ _, mret ∅).

End RecordStore.

(** ** Look-transfer pipeline *)

Definition _clamp (val lo hi : Q) : Q :=
  if Qlt_le_dec val lo then lo
  else if Qlt_le_dec hi val then hi
  else val.

(** [max(a, b)] of Python: the first argument unless the second is larger. *)
Definition py_max (a b : Q) : Q :=
  if Qlt_le_dec a b then b else a.

(** [d.get(k, dflt)] on a [dict[str, float]]. *)
Definition stat_get (d : gmap string Q) (k : string) (dflt : Q) : Q :=
  default dflt (d !! k).

Definition sum_Q (arr : list Q) : Q := foldr Qplus 0%Q arr.

(** The tail of [_extract_signalstats]: [values] holds, per statistic, the
    numbers the regular expression collected from the transcoder's output. *)
Definition _avg (values : gmap string (list Q)) (key : string) : Q :=
  match default [] (values !! key) with
  | [] => 0%Q
  | arr => (sum_Q arr / inject_Z (Z.of_nat (length arr)))%Q
  end.

Definition signalstats_of_values (values : gmap string (list Q)) : gmap string Q :=
  let yavg := _avg values "YAVG" in
  let ylow := _avg values "YLOW" in
  let yhigh := _avg values "YHIGH" in
  let ulow := _avg values "ULOW" in
  let uhigh := _avg values "UHIGH" in
  let vlow := _avg values "VLOW" in
  let vhigh := _avg values "VHIGH" in
  <["crange" := py_max 1 (((uhigh - ulow) + (vhigh - vlow)) / 2)%Q]>
    (<["yrange" := py_max 1 (yhigh - ylow)%Q]>
      (<["yavg" := yavg]> ∅)).

Definition _compute_eq_params (src ref : gmap string Q) : Q * Q * Q :=
  let b := ((stat_get ref "yavg" 0 - stat_get src "yavg" 0) / 255)%Q in
  let b := _clamp b (- (35 # 100)) (35 # 100) in
  let c := (stat_get ref "yrange" 1 / py_max 1 (stat_get src "yrange" 1))%Q in
  let c := _clamp c (7 # 10) (16 # 10) in
  let s := (stat_get ref "crange" 1 / py_max 1 (stat_get src "crange" 1))%Q in
  let s := _clamp s (6 # 10) (18 # 10) in
  (b, c, s).

(** Nearest integer, ties to even: the rounding of the format
    specification [.4f], which works on the exact value of the float. *)
Definition round_half_even (q : Q) : Z :=
  let fl := Qfloor q in
  match (q - inject_Z fl ?= 1 # 2)%Q with
  | Lt => fl
  | Gt => fl + 1
  | Eq => if Z.even fl then fl else fl + 1
  end.

Definition zero_pad (width : nat) (s : string) : string :=
  String.concat "" (replicate (width - String.length s) "0") +:+ s.

(** [f"{x:.4f}"] for a finite [x]. *)
Definition fmt4 (x : Q) : string :=
  let n := round_half_even (Qabs x * 10000)%Q in
  (if Qlt_le_dec x 0 then "-" else "")
    +:+ pretty (n `div` 10000) +:+ "." +:+ zero_pad 4 (pretty (n `mod` 10000)).

Definition eq_filter (brightness contrast saturation : Q) : string :=
  "eq=brightness=" +:+ fmt4 brightness
    +:+ ":contrast=" +:+ fmt4 contrast
    +:+ ":saturation=" +:+ fmt4 saturation.

(** The command line [_apply_eq_filter] builds; [exe] is the path
    [_ffmpeg_exe()] returns. *)
Definition apply_eq_cmd (exe in_path out_path : string)
    (brightness contrast saturation : Q) : list string :=
  [ exe; "-hide_banner"; "-y"; "-i"; in_path;
    "-map"; "0:v:0"; "-map"; "0:a?";
    "-vf"; eq_filter brightness contrast saturation;
    "-c:v"; "libx264"; "-preset"; "veryfast"; "-crf"; "23";
    "-c:a"; "aac"; "-b:a"; "128k";
    "-movflags"; "+faststart";
    out_path ].

Section Transcoder.

(** The child process: what running a command line returns as its exit
    status, or the error that kept it from starting. *)
Variable run_process : list string → result Z.

(** [subprocess.run(cmd, ..., check=check)]: the exit status, or
    [CalledProcessError] for a non-zero status when [check] is set. *)
Definition subprocess_run (cmd : list string) (check : bool) : result Z :=
  rc ← run_process cmd;
  if check && negb (rc =? 0) then Raise (CalledProcessError rc) else mret rc.

Definition _apply_eq_filter (exe in_path out_path : string)
    (brightness contrast saturation : Q) : result unit :=
  let cmd := apply_eq_cmd exe in_path out_path brightness contrast saturation in
  _ ← subprocess_run cmd true;
  mret tt.

End Transcoder.

(** *** How the transcoder reads a command line

    After the program name, [-hide_banner] and [-y] stand alone, every other
    word that starts with a dash is an option followed by its value, and a
    word without a dash names an output file.  [-vf] is the filter of the
    video stream, [-af] and [-filter:a] that of the audio stream, [-c:a] the
    audio codec, where the name [copy] alone passes the stream through
    without decoding it and any other name encodes it anew. *)

Definition is_flag (a : string) : bool :=
  String.eqb a "-hide_banner" || String.eqb a "-y".

Fixpoint parse_options (args : list string) : list (string * string) :=
  match args with
  | [] => []
  | a :: rest =>
      if is_flag a then parse_options rest
      else if String.prefix "-" a then
        match rest with
        | v :: rest' => (a, v) :: parse_options rest'
        | [] => []
        end
      else parse_options rest
  end.

Definition option_values (name : string) (cmd : list string) : list string :=
  omap (λ '(o, v), if String.eqb o name then Some v else None)
       (parse_options (tail cmd)).

Definition audio_passthrough (cmd : list string) : bool :=
  bool_decide (option_values "-c:a" cmd = ["copy"])
  || bool_decide (option_values "-codec:a" cmd = ["copy"])
  || bool_decide (option_values "-acodec" cmd = ["copy"])
  || bool_decide (option_values "-c" cmd = ["copy"]).

(** ** Progress relay

    The closure variable [last] is the state; an edit handed to the event
    loop is the returned text.  [now] is the reading of [time.monotonic()]
    at the call. *)

Record hook_state := {
  last_t : Q;
  last_text : string
}.

Definition hook_init : hook_state := {| last_t := 0; last_text := "" |}.

Definition _schedule (text : string) (now : Q) (last : hook_state)
  : hook_state * option string :=
  if String.eqb text "" || String.eqb text (last_text last) then (last, None) else
  if Qlt_le_dec (now - last_t last) 1 then (last, None) else
  ({| last_t := now; last_text := text |}, Some text).

Definition finished_text (lang : string) : string :=
  if String.eqb lang "fr" then "✅ Téléchargement terminé. 📦 Préparation…"
  else "✅ Download finished. 📦 Preparing…".

Section ProgressRelay.

(** The three lines rendered for a [downloading] event from the language,
    the kind of download and the event's fields. *)
Variable render_downloading : string → string → gmap string json → string.

Definition hook (lang kind : string) (d : gmap string json) (now : Q)
    (last : hook_state) : hook_state * option string :=
  let status := rec_get d "status" in
  if py_eq_str status "downloading" then
    _schedule (render_downloading lang kind d) now last
  else if py_eq_str status "finished" then
    _schedule (finished_text lang) now last
  else (last, None).

(** The edits one hook submits for a sequence of callbacks, each with the
    clock reading of its call; an edit is recorded with that reading. *)
Fixpoint run_hook (lang kind : string) (events : list (Q * gmap string json))
    (last : hook_state) : list (Q * string) :=
  match events with
  | [] => []
  | (now, d) :: rest =>
      match hook lang kind d now last with
      | (last', Some text) => (now, text) :: run_hook lang kind rest last'
      | (last', None) => run_hook lang kind rest last'
      end
  end.

End ProgressRelay.

(** ** Durable record store: saving

    The file system is the text each path holds.  [save_faults] is what the
    operating system does to one save: [write_fault = Some after] when
    [write_text] raises, leaving the temporary path as [after] (no file, or
    whatever was written before the error), and [replace_fault] when
    [os.replace] raises.  [json_dumps] is the encoder of Python's [json]
    module. *)

Definition USER_STORE_PATH : string := "user_store.json".

(** [USER_STORE_PATH.with_suffix(".tmp")]. *)
Definition USER_STORE_TMP : string := "user_store.tmp".

Record save_faults := {
  write_fault : option (option string);
  replace_fault : bool
}.

Definition set_file (path : string) (content : option string)
    (fs : gmap string string) : gmap string string :=
  match content with
  | Some text => <[path := text]> fs
  | None => delete path fs
  end.

Section SaveStore.

Variable json_dumps : gmap string json → string.

Definition _save_user_store_sync (faults : save_faults) (store : gmap string json)
    (fs : gmap string string) : result unit * gmap string string :=
  let tmp := USER_STORE_TMP in
  match write_fault faults with
  | Some after => (Raise OSError, set_file tmp after fs)
  | None =>
      let fs := <[tmp := json_dumps store]> fs in
      if replace_fault faults then (Raise OSError, fs)
      else (Ok tt, <[USER_STORE_PATH := json_dumps store]> (delete tmp fs))
  end.

End SaveStore.

(** What [exists()] and [read_text()] answer for a path of the file
    system, all of whose directories can be searched. *)
Definition file_at (fs : gmap string string) (path : string) : store_file :=
  {| path_exists := Ok (bool_decide (is_Some (fs !! path)));
     read_text := match fs !! path with
                  | Some text => Ok text
                  | None => Raise OSError
                  end |}.

(** ** Ad cadence *)

Record chat := {
  chat_type : string;
  chat_id : Z
}.

Definition _get_user_record (user_id : Z) : ledger (gmap string json) :=
  if user_id <=? 0 then mret ∅ else
  store ← load_store;
  mret (as_dict (store !! str user_id)).

(** [message_chat] is the [chat] attribute of the message; the answer is
    whether the ad is sent. *)
Definition _maybe_send_ad_after_success (message_chat : option chat) (now : Z)
  : ledger bool :=
  let user_id :=
    match message_chat with
    | Some c => if String.eqb (chat_type c) "private" then Some (chat_id c) else None
    | None => None
    end in
  match user_id with
  | None => mret false
  | Some user_id =>
      if user_id <=? 0 then mret false else
      rec ← _get_user_record user_id;
      premium ← lift (_is_premium_now rec now);
      if premium : bool then mret false else
      should ← _bump_success_and_should_show_ad user_id;
      if negb should then mret false else
      mret true
  end.

(** ** Cache of sent files

    [TIKTOK_FILE_ID_CACHE] is a [dict], which keeps its keys in the order
    they were first set: a list of entries without repeated keys, oldest
    first. *)

Definition TIKTOK_FILE_ID_CACHE_MAX : nat := 200.

(** [k in d]. *)
Definition od_mem (k : string) (d : list (string * string)) : bool :=
  bool_decide (k ∈ d.*1).

(** [d.get(k)]. *)
Fixpoint od_get (k : string) (d : list (string * string)) : option string :=
  match d with
  | [] => None
  | (k', v) :: rest => if String.eqb k' k then Some v else od_get k rest
  end.

(** [d.pop(k, None)]. *)
Definition od_pop (k : string) (d : list (string * string)) : list (string * string) :=
  filter (λ e, e.1 ≠ k) d.

(** [d[k] = v]: in place for a key already there, at the end for a new
    one. *)
Fixpoint od_set (k v : string) (d : list (string * string)) : list (string * string) :=
  match d with
  | [] => [(k, v)]
  | (k', v') :: rest =>
      if String.eqb k' k then (k, v) :: rest else (k', v') :: od_set k v rest
  end.

Definition _cache_tiktok_file_id (video_id file_id : string)
    (cache : list (string * string)) : list (string * string) :=
  if String.eqb video_id "" || String.eqb file_id "" then cache else
  let cache := if od_mem video_id cache then od_pop video_id cache else cache in
  let cache := od_set video_id file_id cache in
  if (TIKTOK_FILE_ID_CACHE_MAX <? length cache)%nat then
    match cache with
    | (oldest, _) :: _ => od_pop oldest cache
    | [] => cache
    end
  else cache.

(** ** Referral links and the start command *)

(** [bot_link] is what [_get_bot_link()] returns. *)
Definition _ref_link_for_user (bot_link : option string) (user_id : Z) : option string :=
  match bot_link with
  | None => None
  | Some link =>
      if String.eqb link "" then None else
      if user_id <=? 0 then None else
      Some (link +:+ "?start=" +:+ ("ref_" +:+ str user_id))
  end.

(** [s[n:]]. *)
Fixpoint str_drop (n : nat) (s : string) : string :=
  match n, s with
  | O, _ => s
  | S n', String _ rest => str_drop n' rest
  | S _, EmptyString => EmptyString
  end.

Section Start.

Variable py_int_of_str : string → option Z.

(** The ledger part of [start]; [args] is [context.args] and the answer is
    whether the referral bonus is announced. *)
Definition start (upd : update) (args : option (list string)) : ledger bool :=
  match update_msg upd with
  | None => mret false
  | Some _ =>
      match args with
      | Some (arg0 :: _) =>
          if String.prefix "ref_" arg0 then
            let ref_part := str_drop 4 arg0 in
            let ref_id := match py_int_of_str ref_part with
                          | Some n => n
                          | None => 0
                          end in
            if 0 <? ref_id then
              match effective_user upd with
              | Some sender => _apply_referral (id sender) ref_id
              | None => mret false
              end
            else mret false
          else mret false
      | _ => mret false
      end
  end.

End Start.

(** ** Invoices

    What [premium_callback] does for a pressed button, as the one message
    it sends.  [lang] is what [get_user_lang] returns for the update. *)

Definition PREMIUM_30D_STARS : Z := 299.
Definition CREDITS_10_STARS : Z := 99.
Definition CREDITS_50_STARS : Z := 399.

Record callback_query := { query_data : option string }.

Record callback_update := {
  upd_callback_query : option callback_query;
  cb_effective_user : option user;
  cb_effective_chat : option chat
}.

Record invoice := {
  inv_chat_id : Z;
  inv_title : string;
  inv_description : string;
  inv_payload : string;
  inv_provider_token : string;
  inv_currency : string;
  inv_label : string;
  inv_amount : Z
}.

Inductive premium_action :=
| NoAction
| ReplyTryAgain
| ReplyText (text : string)
| SendInvoice (inv : invoice).

Definition premium_callback (upd : callback_update) (lang : string)
    (bot_link : option string) : premium_action :=
  match upd_callback_query upd with
  | None => NoAction
  | Some query =>
      let data := match query_data query with
                  | Some d => d
                  | None => EmptyString
                  end in
      match cb_effective_user upd, cb_effective_chat upd with
      | Some sender, Some chat =>
          if String.eqb data "premium_my_ref" then
            match _ref_link_for_user bot_link (id sender) with
            | None => ReplyTryAgain
            | Some ref_link => ReplyText ref_link
            end
          else if String.eqb data "premium_buy_month" then
            SendInvoice
              {| inv_chat_id := chat_id chat;
                 inv_title := if String.eqb lang "fr" then "⭐ Premium 30 jours"
                              else "⭐ Premium 30 days";
                 inv_description :=
                   if String.eqb lang "fr" then "Sans pubs + Effets illimités + priorité"
                   else "No ads + unlimited Effects + priority";
                 inv_payload := "cx|premium_30d|" +:+ str (id sender);
                 inv_provider_token := "";
                 inv_currency := "XTR";
                 inv_label := "Premium 30d";
                 inv_amount := PREMIUM_30D_STARS |}
          else if String.eqb data "premium_buy_credits10" then
            SendInvoice
              {| inv_chat_id := chat_id chat;
                 inv_title := if String.eqb lang "fr" then "🎟️ Pack 10 crédits"
                              else "🎟️ 10 credits pack";
                 inv_description :=
                   if String.eqb lang "fr"
                   then "Utilise-les pour ✨ Effets et options premium"
                   else "Use them for ✨ Effects and premium options";
                 inv_payload := "cx|credits_10|" +:+ str (id sender);
                 inv_provider_token := "";
                 inv_currency := "XTR";
                 inv_label := "10 credits";
                 inv_amount := CREDITS_10_STARS |}
          else if String.eqb data "premium_buy_credits50" then
            SendInvoice
              {| inv_chat_id := chat_id chat;
                 inv_title := if String.eqb lang "fr" then "🎟️ Pack 50 crédits"
                              else "🎟️ 50 credits pack";
                 inv_description :=
                   if String.eqb lang "fr"
                   then "Utilise-les pour ✨ Effets et options premium"
                   else "Use them for ✨ Effects and premium options";
                 inv_payload := "cx|credits_50|" +:+ str (id sender);
                 inv_provider_token := "";
                 inv_currency := "XTR";
                 inv_label := "50 credits";
                 inv_amount := CREDITS_50_STARS |}
          else NoAction
      | _, _ => NoAction
      end
  end.

Record pre_checkout_query := { pcq_invoice_payload : option string }.

(** The answer [precheckout_callback] gives: [ok] and the error message. *)
Definition precheckout_callback (query : option pre_checkout_query)
  : option (bool * option string) :=
  match query with
  | None => None
  | Some q =>
      let ok := match pcq_invoice_payload q with
                | Some payload => String.prefix "cx|" payload
                | None => false
                end in
      Some (ok, if ok then None else Some "Invalid invoice")
  end.

(** ** Remaining time of a download *)

(** [x <= 0] for a number; a NaN compares false. *)
Definition num_le_0 (x : pynum) : bool :=
  match x with
  | NInt n => n <=? 0
  | NFloat (Finite q) => Qle_bool q 0
  | NFloat NaN => false
  | NFloat (Inf negative) => negative
  end.

Definition _format_eta (seconds : json) : result string :=
  match as_number seconds with
  | None => mret "?"
  | Some x =>
      if num_le_0 x then mret "?" else
      s ← py_int x;
      let m := s `div` 60 in
      let s := s `mod` 60 in
      let h := m `div` 60 in
      let m := m `mod` 60 in
      if negb (h =? 0) then mret (str h +:+ "h" +:+ zero_pad 2 (str m) +:+ "m")
      else if negb (m =? 0) then mret (str m +:+ "m" +:+ zero_pad 2 (str s) +:+ "s")
      else mret (str s +:+ "s")
  end.

(** ** Applying the look and consuming the entitlement

    The part of [handle_message] that runs once the user's video is on
    disk: statistics, parameters, filter, delivery, and in its [finally]
    the entitlement.  [effects_io] holds what the collaborators answer:
    the statistics of the user's video or the error of the extraction,
    whether the output exists and its size, how the two video sends and the
    document send end, and whether the closing reply goes through. *)

Definition MAX_FILE_SIZE_BYTES : Z := 50 * 1024 * 1024.

Inductive send_outcome :=
| Sent
| SendTimedOut
| SendFailed.

Record effects_io := {
  extract_stats : result (gmap string Q);
  out_exists : bool;
  out_size : Z;
  video_try1 : send_outcome;
  video_try2 : send_outcome;
  document_try : send_outcome;
  done_reply : bool
}.

(** The two attempts to send the video, the document as a fallback, then
    the closing reply: [true] when the code reaches [sent_ok = True]. *)
Definition deliver (io : effects_io) : bool :=
  let sent :=
    match video_try1 io with
    | Sent => Some true
    | SendTimedOut =>
        match video_try2 io with
        | Sent => Some true
        | SendTimedOut => Some false
        | SendFailed => None
        end
    | SendFailed => None
    end in
  match sent with
  | None => false
  | Some true => done_reply io
  | Some false =>
      match document_try io with
      | Sent => done_reply io
      | _ => false
      end
  end.

(** The value a call returns, [None] when it raises. *)
Definition completed {A} (r : result A) : option A :=
  match r with
  | Ok a => Some a
  | Raise _ => None
  end.

(** [try: m / except Exception: pass]. *)
Definition swallow (m : ledger unit) : ledger unit := λ disk,
  match m disk with
  | (_, disk') => (Ok tt, disk')
  end.

Section EffectsSession.

Variable run_process : list string → result Z.

(** The value of [sent_ok] when the [finally] block is entered.  The [try]
    block is run in the option monad: [None] is an exception, which the
    [except] clause answers without setting [sent_ok]; the early [return]
    for an output that is too large leaves it [False] as well. *)
Definition effects_sent_ok (exe user_path out_path : string)
    (ref_stats : gmap string Q) (io : effects_io) : bool :=
  default false
    (src_stats ← completed (extract_stats io);
     let '(b, c, s) := _compute_eq_params src_stats ref_stats in
     _ ← completed (_apply_eq_filter run_process exe user_path out_path b c s);
     if out_exists io then
       if MAX_FILE_SIZE_BYTES <? out_size io then Some false
       else if deliver io then Some true
       else None
     else Some false).

Definition apply_effects (exe user_path out_path : string)
    (ref_stats : gmap string Q) (io : effects_io)
    (entitlement_kind : option string) (effective_user : option user)
    (today : string) : ledger bool :=
  let sent_ok := effects_sent_ok exe user_path out_path ref_stats io in
  _ ← (if sent_ok then
         match effective_user with
         | Some sender =>
             swallow (_finalize_effect_entitlement (id sender) entitlement_kind today)
         | None => mret tt
         end
       else mret tt);
  mret sent_ok.

End EffectsSession.

(** ** Retry buttons

    A button's label is [get_message(key, lang)], kept as the key and the
    language, beside its callback data; [context.user_data] is a dictionary
    of values.  What [retry_callback] does is the one call on
    [query.message] it ends in: the reply that no link is saved,
    [process_url] or [process_audio_url]. *)

Record button := {
  label_key : string;
  label_lang : string;
  callback_data : string
}.

Definition _action_keyboard (lang action : string) (quality : option string)
  : list (list button) :=
  let buttons :=
    if String.eqb action "video" then
      let retry_data :=
        "retry_video_" +:+ match quality with
                           | Some q => if String.eqb q "" then "hd" else q
                           | None => "hd"
                           end in
      let row := [ {| label_key := "retry_button"; label_lang := lang;
                      callback_data := retry_data |} ] in
      let row :=
        if kind_is quality "hd" then
          row ++ [ {| label_key := "try_sd_button"; label_lang := lang;
                    callback_data := "retry_video_sd" |} ]
        else if kind_is quality "sd" then
          row ++ [ {| label_key := "try_hd_button"; label_lang := lang;
                    callback_data := "retry_video_hd" |} ]
        else row in
      [row]
    else if String.eqb action "audio" then
      [ [ {| label_key := "retry_button"; label_lang := lang;
          callback_data := "retry_audio" |} ] ]
    else [] in
  buttons ++ [ [ {| label_key := "menu_button"; label_lang := lang;
                   callback_data := "menu_main" |} ] ].

(** [s.split(sep, maxsplit)] for a one-character separator. *)
Fixpoint split_max (sep : ascii) (s : string) (maxsplit : nat) : list string :=
  match s with
  | EmptyString => [EmptyString]
  | String c rest =>
      match maxsplit with
      | O => [s]
      | S less =>
          if Ascii.eqb c sep then EmptyString :: split_max sep rest less
          else match split_max sep rest maxsplit with
               | h :: t => String c h :: t
               | [] => [String c EmptyString]
               end
      end
  end.

Inductive retry_action :=
| RetryNothing
| RetryNoUrl
| RetryVideo (url : json) (quality audio_lang : string)
| RetryAudio (url : json).

Definition retry_callback (query : option callback_query)
    (user_data : gmap string json) : retry_action * gmap string json :=
  match query with
  | None => (RetryNothing, user_data)
  | Some query =>
      let url := rec_get user_data "last_url" in
      if negb (truthy url) then (RetryNoUrl, user_data) else
      let data := match query_data query with
                  | Some d => d
                  | None => EmptyString
                  end in
      if String.prefix "retry_video_" data then
        let quality := nth 2 (split_max "_" data 2) EmptyString in
        let quality :=
          if negb (String.eqb quality "hd" || String.eqb quality "sd") then "hd"
          else quality in
        let user_data := <["last_action" := JStr "video"]> user_data in
        let user_data := <["last_quality" := JStr quality]> user_data in
        let audio_lang :=
          match rec_get user_data "last_audio_lang" with
          | JStr a =>
              if String.eqb a "orig" || String.eqb a "fr" || String.eqb a "en" then a
              else "orig"
          | _ => "orig"
          end in
        (RetryVideo url quality audio_lang, user_data)
      else if String.eqb data "retry_audio" then
        let user_data := <["last_action" := JStr "audio"]> user_data in
        let user_data := delete "last_quality" user_data in
        (RetryAudio url, user_data)
      else (RetryNothing, user_data)
  end.

(** ** What the properties are stated with

    Views of the store, the sequences of calls the properties quantify
    over, the decisions of the design written out, and a few stores and
    inputs used as examples. *)

(** *** Premium grants *)

(** The record the ledger functions work on for [user_id]. *)
Definition user_record (store : gmap string json) (user_id : Z) : gmap string json :=
  as_dict (store !! str user_id).

Definition premium_until_of (store : gmap string json) (user_id : Z) : json :=
  rec_get (user_record store user_id) "premium_until".

(** A sequence of [_grant_premium] calls for one user, each with the clock
    reading and the duration of the call, oldest first. *)
Fixpoint grant_all (user_id : Z) (calls : list (Z * Z)) (store : gmap string json)
  : gmap string json :=
  match calls with
  | [] => store
  | (now, seconds) :: rest =>
      grant_all user_id rest (snd (_grant_premium user_id seconds now store))
  end.

Fixpoint sum_durations (calls : list (Z * Z)) : Z :=
  match calls with
  | [] => 0
  | (_, seconds) :: rest => seconds + sum_durations rest
  end.

(** Calls are contiguous from [expiry] when each has a positive duration and
    is made no later than the expiry the earlier ones have built up. *)
Fixpoint contiguous (expiry : Z) (calls : list (Z * Z)) : Prop :=
  match calls with
  | [] => True
  | (now, seconds) :: rest =>
      now ≤ expiry ∧ 0 < seconds ∧ contiguous (expiry + seconds) rest
  end.

(** *** Planning *)

(** The free uses a record counts for the day [today]: the stored counter
    when the stored day is [today], and 0 for any other stored day. *)
Definition free_used_on (rec : gmap string json) (today : string) : result Z :=
  match rec_get rec "effects_free_day" with
  | JStr day =>
      if String.eqb day today then int_or 0 (rec_get rec "effects_free_used")
      else Ok 0
  | _ => Ok 0
  end.

(** The decision of the design, in its order: premium, then the daily
    free quota of 2, then credits, then denial. *)
Definition spec_plan (premium_active : bool) (free_used_today credits : Z)
  : option string :=
  if premium_active then Some "premium"
  else if free_used_today <? 2 then Some "free"
  else if 0 <? credits then Some "credit"
  else None.

(** Every float a record holds is finite, as the numbers the ledger itself
    writes (integers) and all ordinary JSON numbers are. *)
Definition finite_numbers (rec : gmap string json) : Prop :=
  ∀ k f, rec !! k = Some (JFloat f) → ∃ q, f = Finite q.

(** The record [_finalize_effect_entitlement] stores for a [free] use. *)
Definition free_use_recorded (rec : gmap string json) (today : string) (used : Z)
  : gmap string json :=
  <["effects_free_used" := JInt (used + 1)]> (<["effects_free_day" := JStr today]> rec).

(** *** Payments *)

(** The invoice payload an update carries, when it carries one. *)
Definition invoice_payload_of (upd : update) : option string :=
  msg ← update_msg upd; sp ← successful_payment msg; invoice_payload sp.

(** A payment of 10 credits sent by user 7 on an invoice made out to
    user 9. *)
Definition payment_by_7_for_9 : update :=
  {| upd_message :=
       Some {| successful_payment :=
                 Some {| invoice_payload := Some "cx|credits_10|9" |} |};
     effective_message := None;
     effective_user := Some {| id := 7 |} |}.

(** *** Progress edits *)

(** Each edit's text differs from the text submitted before it, [prev]
    being the text before the first. *)
Fixpoint texts_change (prev : string) (edits : list (Q * string)) : Prop :=
  match edits with
  | [] => True
  | e :: rest => snd e ≠ prev ∧ texts_change (snd e) rest
  end.

(** The second edit is submitted at least one second after the first. *)
Definition a_second_apart (a b : Q * string) : Prop := (fst a + 1 <= fst b)%Q.

(** *** Store files and statistics *)

(** A store file that exists and holds text no decoder accepts. *)
Definition garbled_file : store_file :=
  {| path_exists := Ok true; read_text := Ok "{oops" |}.

(** A store path under a directory that denies search: [stat] fails with
    EACCES, so [exists()] and [read_text()] both raise [PermissionError]. *)
Definition denied_path : store_file :=
  {| path_exists := Raise OSError; read_text := Raise OSError |}.

(** A store file that is there but may not be read. *)
Definition unreadable_file : store_file :=
  {| path_exists := Ok true; read_text := Raise OSError |}.

(** The clamp of the design, [clamp(x, lo, hi)], as a maximum of a
    minimum. *)
Definition spec_clamp (x lo hi : Q) : Q := Qmax lo (Qmin hi x).

(** Statistics of a clip with narrow luma and chroma ranges. *)
Definition flat_stats : gmap string Q :=
  <["crange" := 1 # 2]> (<["yrange" := 1 # 2]> (<["yavg" := 128 # 1]> ∅)).

(** Statistics as [_extract_signalstats] floors them. *)
Definition graded_stats : gmap string Q :=
  <["crange" := 40 # 1]> (<["yrange" := 180 # 1]> (<["yavg" := 128 # 1]> ∅)).

(** *** Credits and sequences of operations *)

(** The stored credits of a record are in order when the field is absent
    or holds a non-negative integer. *)
Definition rec_credits_ok (rec : gmap string json) : Prop :=
  match rec !! "credits" with
  | None => True
  | Some (JInt n) => 0 ≤ n
  | Some _ => False
  end.

Definition credits_stored_ok (store : gmap string json) : Prop :=
  ∀ k rec, store !! k = Some (JObj rec) → rec_credits_ok rec.

(** The operations on the ledger, each with its arguments and the clock
    readings of the call. *)
Inductive ledger_op :=
| GrantPremium (user_id seconds now : Z)
| AddCredits (user_id amount : Z)
| Plan (user_id now : Z) (today : string)
| Finalize (user_id : Z) (kind : option string) (today : string)
| BumpSuccess (user_id : Z)
| ApplyReferral (new_user_id ref_user_id : Z).

(** The store an operation leaves behind. *)
Definition run_op (op : ledger_op) (store : gmap string json) : gmap string json :=
  match op with
  | GrantPremium u seconds now => snd (_grant_premium u seconds now store)
  | AddCredits u amount => snd (_add_credits u amount store)
  | Plan u now today => snd (_plan_effect_entitlement u now today store)
  | Finalize u kind today => snd (_finalize_effect_entitlement u kind today store)
  | BumpSuccess u => snd (_bump_success_and_should_show_ad u store)
  | ApplyReferral new ref => snd (_apply_referral new ref store)
  end.

Definition run_ops (ops : list ledger_op) (store : gmap string json)
  : gmap string json :=
  foldl (λ st op, run_op op st) store ops.

(** A store in which user 42 has used both free effects of 2024-05-01 and
    holds 3 credits. *)
Definition store_quota_spent : gmap string json :=
  <["42" := JObj (<["credits" := JInt 3]>
                    (<["effects_free_used" := JInt 2]>
                       (<["effects_free_day" := JStr "2024-05-01"]> ∅)))]> ∅.

(** *** Sequences of successes, cachings and credit uses *)

(** [n] calls of [_bump_success_and_should_show_ad] for one user: the
    answers, oldest first, and the store left behind. *)
Fixpoint bump_all (user_id : Z) (n : nat) (store : gmap string json)
  : list (result bool) * gmap string json :=
  match n with
  | O => ([], store)
  | S n' =>
      let '(answer, store1) := _bump_success_and_should_show_ad user_id store in
      let '(answers, store2) := bump_all user_id n' store1 in
      (answer :: answers, store2)
  end.

(** The cache after a sequence of [_cache_tiktok_file_id] calls, oldest
    first, starting from the empty cache. *)
Definition cache_after (calls : list (string * string)) : list (string * string) :=
  foldl (λ cache call, _cache_tiktok_file_id call.1 call.2 cache) [] calls.

(** What a [dict] used as this cache always satisfies: no key twice, no
    more than the maximum of entries, no empty key or value. *)
Definition cache_ok (cache : list (string * string)) : Prop :=
  NoDup cache.*1 ∧
  (length cache ≤ TIKTOK_FILE_ID_CACHE_MAX)%nat ∧
  Forall (λ e, e.1 ≠ "" ∧ e.2 ≠ "") cache.

(** The store after [n] finalized [credit] uses of one user on one day. *)
Definition spend_credits (user_id : Z) (today : string) (n : nat)
    (store : gmap string json) : gmap string json :=
  Nat.iter n
    (λ st, snd (_finalize_effect_entitlement user_id (Some "credit") today st))
    store.

(** An update for a successful payment with the given payload. *)
Definition payment_update (sender : user) (payload : string) : update :=
  {| upd_message :=
       Some {| successful_payment := Some {| invoice_payload := Some payload |} |};
     effective_message := None;
     effective_user := Some sender |}.

(** The press of a button of the premium menu by [sender] in [chat]. *)
Definition button_press (sender : user) (c : chat) (data : string) : callback_update :=
  {| upd_callback_query := Some {| query_data := Some data |};
     cb_effective_user := Some sender;
     cb_effective_chat := Some c |}.

(** What the ledger does for a product bought by [user_id]. *)
Definition deliver_product (product : string) (user_id now : Z) : ledger unit :=
  if String.eqb product "premium_30d" then
    _grant_premium user_id PREMIUM_DURATION_SECONDS now
  else if String.eqb product "credits_10" then _add_credits user_id 10
  else if String.eqb product "credits_50" then _add_credits user_id 50
  else mret tt.

(** A delivery in which everything works at the first attempt. *)
Definition smooth_io : effects_io :=
  {| extract_stats := Ok graded_stats;
     out_exists := true;
     out_size := 1000000;
     video_try1 := Sent;
     video_try2 := Sent;
     document_try := Sent;
     done_reply := true |}.

(** The command line the effects run gives the transcoder for the
    statistics of the user's video. *)
Definition effects_cmd (exe user_path out_path : string)
    (src_stats ref_stats : gmap string Q) : list string :=
  apply_eq_cmd exe user_path out_path
    (_compute_eq_params src_stats ref_stats).1.1
    (_compute_eq_params src_stats ref_stats).1.2
    (_compute_eq_params src_stats ref_stats).2.

(** The users an operation is called for. *)
Definition op_users (op : ledger_op) : list Z :=
  match op with
  | GrantPremium u _ _ => [u]
  | AddCredits u _ => [u]
  | Plan u _ _ => [u]
  | Finalize u _ _ => [u]
  | BumpSuccess u => [u]
  | ApplyReferral new ref => [new; ref]
  end.

Definition is_grant (op : ledger_op) : bool :=
  match op with
  | GrantPremium _ _ _ => true
  | _ => false
  end.

(** The store an operation leaves is the one it found, or that one with
    its users' records replaced by records. *)
Inductive touches (users : list Z) (s : gmap string json) : gmap string json → Prop :=
| touches_none : touches users s s
| touches_insert (u : Z) (rec : gmap string json) (s' : gmap string json) :
    u ∈ users → touches users s s' → touches users s (<[str u := JObj rec]> s').

(** The fields of a record an operation may write. *)
Definition op_fields (op : ledger_op) : list string :=
  match op with
  | GrantPremium _ _ _ => ["premium_until"]
  | AddCredits _ _ => ["credits"]
  | Plan _ _ _ => []
  | Finalize _ _ _ => ["effects_free_day"; "effects_free_used"; "credits"]
  | BumpSuccess _ => ["success_count"]
  | ApplyReferral _ _ => ["referred_by"; "ref_count"; "credits"]
  end.

(** The store is the one found, or has had records put in that agree on
    the field [f] with the record they replace. *)
Inductive keeps (f : string) (s : gmap string json) : gmap string json → Prop :=
| keeps_none : keeps f s s
| keeps_insert (u : Z) (rec : gmap string json) (s' : gmap string json) :
    keeps f s s' →
    rec_get rec f = rec_get (user_record s' u) f →
    keeps f s (<[str u := JObj rec]> s').

(** ** Proof tools *)

Ltac ledger_unfold :=
  unfold mbind, mret, ledger_bind, ledger_ret, result_bind, result_ret,
    load_store, save_store, lift in *.

Lemma str_inj (a b : Z) : str a = str b → a = b.
Proof. unfold str. apply pretty_Z_inj. Qed.

Lemma user_record_insert_eq (store : gmap string json) (u : Z) (rec : gmap string json) :
  user_record (<[str u := JObj rec]> store) u = rec.
Proof. unfold user_record. by rewrite lookup_insert_eq. Qed.

Lemma user_record_insert_ne (store : gmap string json) (u v : Z) (rec : gmap string json) :
  u ≠ v → user_record (<[str u := JObj rec]> store) v = user_record store v.
Proof.
  intros Hne. unfold user_record.
  rewrite lookup_insert_ne; [done | intros H; by apply str_inj in H].
Qed.

Lemma rec_get_insert_eq (rec : gmap string json) (k : string) (v : json) :
  rec_get (<[k := v]> rec) k = v.
Proof. unfold rec_get. by rewrite lookup_insert_eq. Qed.

Lemma rec_get_insert_ne (rec : gmap string json) (k k' : string) (v : json) :
  k ≠ k' → rec_get (<[k := v]> rec) k' = rec_get rec k'.
Proof. intros. unfold rec_get. by rewrite lookup_insert_ne. Qed.

(** *** [_grant_premium] *)

Lemma grant_premium_noop (u seconds now : Z) (s : gmap string json) :
  seconds ≤ 0 → _grant_premium u seconds now s = (Ok tt, s).
Proof.
  intros H. unfold _grant_premium.
  destruct (Z.leb_spec seconds 0); [done | lia].
Qed.

Lemma grant_premium_run (u seconds now cur : Z) (s : gmap string json) :
  0 < seconds →
  int_or 0 (premium_until_of s u) = Ok cur →
  _grant_premium u seconds now s =
    (Ok tt,
     <[str u := JObj (<["premium_until" := JInt (Z.max now cur + seconds)]>
                        (user_record s u))]> s).
Proof.
  intros Hpos Hcur. unfold _grant_premium.
  destruct (Z.leb_spec seconds 0); [lia |].
  ledger_unfold. unfold premium_until_of, user_record in *. rewrite Hcur.
  destruct (Z.ltb_spec cur now).
  - by rewrite Z.max_l by lia.
  - by rewrite Z.max_r by lia.
Qed.

Lemma grant_all_contiguous (u : Z) (calls : list (Z * Z)) :
  ∀ (s : gmap string json) (expiry : Z),
    premium_until_of s u = JInt expiry →
    contiguous expiry calls →
    premium_until_of (grant_all u calls s) u = JInt (expiry + sum_durations calls).
Proof.
  induction calls as [| [now seconds] rest IH]; intros s expiry Hcur Hcont; simpl.
  - by rewrite Z.add_0_r.
  - destruct Hcont as (Hnow & Hpos & Hrest).
    assert (int_or 0 (premium_until_of s u) = Ok expiry) as Hint by by rewrite Hcur.
    rewrite (grant_premium_run u seconds now expiry s Hpos Hint). simpl.
    rewrite Z.add_assoc. apply IH; [| done].
    unfold premium_until_of. rewrite user_record_insert_eq, rec_get_insert_eq.
    f_equal. lia.
Qed.

Lemma grant_premium_frame (u seconds now : Z) (s : gmap string json) (k : string) :
  k ≠ str u → snd (_grant_premium u seconds now s) !! k = s !! k.
Proof.
  intros Hk. unfold _grant_premium.
  destruct (seconds <=? 0); [done |].
  ledger_unfold. destruct (int_or 0 _); simpl; [| done].
  by rewrite lookup_insert_ne.
Qed.

(** C3 (as amended).  With a readable stored expiry [cur] (absent counts as
    0): a grant of a non-positive duration changes nothing; a grant of a
    positive duration stores [max(now, cur) + seconds], which is later than
    [cur], and touches no other user; and after a first grant at [now1]
    followed by contiguous grants the stored expiry is
    [max(now1, cur)] plus the sum of all durations, that is the clock of the
    FIRST call plus the sum when premium was not active at that call. *)
Theorem grant_premium_extends (u : Z) (s : gmap string json) (cur : Z)
    (Hcur : int_or 0 (premium_until_of s u) = Ok cur) :
  (∀ now seconds, seconds ≤ 0 → _grant_premium u seconds now s = (Ok tt, s)) ∧
  (∀ now seconds, 0 < seconds →
     ∃ s', _grant_premium u seconds now s = (Ok tt, s') ∧
           premium_until_of s' u = JInt (Z.max now cur + seconds) ∧
           cur < Z.max now cur + seconds ∧
           ∀ k, k ≠ str u → s' !! k = s !! k) ∧
  (∀ now1 d1 rest, 0 < d1 →
     contiguous (Z.max now1 cur + d1) rest →
     premium_until_of (grant_all u ((now1, d1) :: rest) s) u
       = JInt (Z.max now1 cur + (d1 + sum_durations rest)) ∧
     (cur ≤ now1 →
      premium_until_of (grant_all u ((now1, d1) :: rest) s) u
        = JInt (now1 + (d1 + sum_durations rest)))).
Proof.
  split; [| split].
  - intros now seconds Hle. by apply grant_premium_noop.
  - intros now seconds Hpos. eexists. split; [by apply grant_premium_run |].
    split; [| split].
    + unfold premium_until_of. by rewrite user_record_insert_eq, rec_get_insert_eq.
    + lia.
    + intros k Hk. by rewrite lookup_insert_ne.
  - intros now1 d1 rest Hpos Hcont.
    assert (premium_until_of (grant_all u ((now1, d1) :: rest) s) u
            = JInt (Z.max now1 cur + (d1 + sum_durations rest))) as Hgen.
    { simpl. rewrite (grant_premium_run u d1 now1 cur s Hpos Hcur). simpl.
      rewrite Z.add_assoc. apply grant_all_contiguous; [| done].
      unfold premium_until_of.
      by rewrite user_record_insert_eq, rec_get_insert_eq. }
    split; [done |]. intros Hle. rewrite Hgen. by rewrite Z.max_l by lia.
Qed.

Lemma grant_premium_extends_witness :
  premium_until_of (grant_all 7 [(100, 10); (105, 10)] ∅) 7 = JInt 120.
Proof.
  exact (proj1 (proj2 (proj2 (grant_premium_extends 7 ∅ 0 eq_refl))
                  100 10 [(105, 10)] eq_refl
                  (conj (Zle_bool_imp_le 105 110 eq_refl) (conj eq_refl I)))).
Defined.

(** C3 (as stated) fails: two grants of 10 seconds, at clock 100 and at
    clock 105, are contiguous (the gap of 5 is within the 10 seconds granted
    so far), yet the stored expiry is 120, the clock of the first call plus
    20, and not 125, the clock of the last call plus 20. *)
Lemma grant_premium_last_call_counterexample :
  contiguous (100 + 10) [(105, 10)] ∧
  105 - 100 ≤ 10 ∧
  premium_until_of (grant_all 7 [(100, 10); (105, 10)] ∅) 7 = JInt 120 ∧
  JInt 120 ≠ JInt (105 + (10 + 10)).
Proof.
  repeat split; try (simpl; lia); try reflexivity.
  intros H. discriminate H.
Qed.

(** *** Credits *)

Lemma get_credits_nonneg (rec : gmap string json) (n : Z) :
  _get_credits rec = Ok n → 0 ≤ n.
Proof.
  unfold _get_credits. destruct (as_number _) as [c |]; simpl.
  - destruct (py_int c) as [m | e]; simpl; [| done].
    intros [= <-]. destruct (Z.ltb_spec 0 m); lia.
  - by intros [= <-].
Qed.

Lemma rec_credits_ok_empty : rec_credits_ok ∅.
Proof. unfold rec_credits_ok. by rewrite lookup_empty. Qed.

Lemma rec_credits_ok_set (rec : gmap string json) (n : Z) :
  0 ≤ n → rec_credits_ok (<["credits" := JInt n]> rec).
Proof. intros. unfold rec_credits_ok. by rewrite lookup_insert_eq. Qed.

Lemma rec_credits_ok_other (rec : gmap string json) (f : string) (v : json) :
  f ≠ "credits" → rec_credits_ok rec → rec_credits_ok (<[f := v]> rec).
Proof. intros. unfold rec_credits_ok. by rewrite lookup_insert_ne. Qed.

Lemma credits_ok_record (s : gmap string json) (k : string) :
  credits_stored_ok s → rec_credits_ok (as_dict (s !! k)).
Proof.
  intros Hs. destruct (s !! k) as [[| | | | | | m] |] eqn:E; simpl;
    try apply rec_credits_ok_empty.
  by apply (Hs k).
Qed.

Lemma credits_ok_insert (s : gmap string json) (k : string) (rec : gmap string json) :
  credits_stored_ok s → rec_credits_ok rec →
  credits_stored_ok (<[k := JObj rec]> s).
Proof.
  intros Hs Hrec k' rec'. rewrite lookup_insert. case_decide.
  - by intros [= <-].
  - apply Hs.
Qed.

Ltac credits_ok :=
  repeat first
    [ assumption
    | apply credits_ok_insert
    | apply credits_ok_record
    | apply rec_credits_ok_set
    | apply rec_credits_ok_other; [discriminate |]
    | lia ].

Lemma run_op_credits_ok (op : ledger_op) (s : gmap string json) :
  credits_stored_ok s → credits_stored_ok (run_op op s).
Proof.
  intros Hs. destruct op as [u d now | u a | u now today | u kind today | u | new ref];
    simpl.
  - unfold _grant_premium. destruct (d <=? 0); [done |].
    ledger_unfold. destruct (int_or 0 _); simpl; credits_ok.
  - unfold _add_credits. destruct (a <=? 0); [done |].
    ledger_unfold. destruct (int_or 0 _); simpl; credits_ok.
  - unfold _plan_effect_entitlement. ledger_unfold.
    destruct (_is_premium_now _ _) as [[|] |]; simpl; try done.
    destruct (int_or 0 _) as [n |]; simpl; try done.
    destruct (n <? FREE_EFFECTS_PER_DAY); simpl; try done.
    destruct (_get_credits _) as [c |]; simpl; try done.
    by destruct (0 <? c).
  - unfold _finalize_effect_entitlement.
    destruct (negb (known_kind kind)); [done |].
    destruct (kind_is kind "premium"); [done |].
    ledger_unfold.
    destruct (py_ne_str _ today); destruct (int_or 0 _) as [n |]; simpl; try done.
    all: destruct (kind_is kind "free"); simpl; [credits_ok |].
    all: destruct (kind_is kind "credit"); simpl; [| credits_ok].
    all: destruct (_get_credits _) as [c |]; simpl; credits_ok.
  - unfold _bump_success_and_should_show_ad.
    destruct (AD_EVERY_SUCCESS_COUNT <=? 0); [done |].
    ledger_unfold. destruct (int_or 0 _); simpl; credits_ok.
  - unfold _apply_referral.
    destruct (_ || _); [done |]. destruct (new =? ref); [done |].
    ledger_unfold. destruct (truthy _); [done |].
    destruct (int_or 0 _) as [rc |]; simpl; [| done].
    destruct (_get_credits _) as [cr |] eqn:Hcr; simpl; [| done].
    destruct (_get_credits _) as [cn |] eqn:Hcn in |- *; simpl; [| done].
    apply get_credits_nonneg in Hcr, Hcn. credits_ok.
Qed.

Lemma run_ops_credits_ok (ops : list ledger_op) :
  ∀ s, credits_stored_ok s → credits_stored_ok (run_ops ops s).
Proof.
  induction ops as [| op ops IH]; intros s Hs; simpl; [done |].
  apply IH. by apply run_op_credits_ok.
Qed.

Lemma get_credits_set (rec : gmap string json) (n : Z) :
  0 ≤ n → _get_credits (<["credits" := JInt n]> rec) = Ok n.
Proof.
  intros Hn. unfold _get_credits. rewrite rec_get_insert_eq. simpl.
  unfold mret, result_ret. f_equal. destruct (Z.ltb_spec 0 n); lia.
Qed.

Lemma get_credits_other (rec : gmap string json) (f : string) (v : json) :
  f ≠ "credits" → _get_credits (<[f := v]> rec) = _get_credits rec.
Proof. intros. unfold _get_credits. by rewrite rec_get_insert_ne. Qed.

Lemma finalize_credit_run (u : Z) (today : string) (s s' : gmap string json) (c : Z) :
  _get_credits (user_record s u) = Ok c →
  _finalize_effect_entitlement u (Some "credit") today s = (Ok tt, s') →
  s' = <[str u := JObj (<["credits" := JInt (Z.max 0 (c - 1))]> (user_record s u))]> s.
Proof.
  unfold _finalize_effect_entitlement, user_record. simpl. ledger_unfold.
  intros Hc.
  destruct (py_ne_str _ today); destruct (int_or 0 _) as [n |]; simpl;
    try discriminate; rewrite Hc; simpl; by intros [= <-].
Qed.

Lemma finalize_credit_store (u : Z) (today : string) (s : gmap string json) (c : Z) :
  _get_credits (user_record s u) = Ok c →
  snd (_finalize_effect_entitlement u (Some "credit") today s) = s ∨
  snd (_finalize_effect_entitlement u (Some "credit") today s)
    = <[str u := JObj (<["credits" := JInt (Z.max 0 (c - 1))]> (user_record s u))]> s.
Proof.
  intros Hc.
  destruct (_finalize_effect_entitlement u (Some "credit") today s) as [[[] | e] s'] eqn:E.
  - right. simpl. by apply (finalize_credit_run u today s s' c).
  - left. revert E.
    unfold _finalize_effect_entitlement, user_record in *. simpl. ledger_unfold.
    destruct (py_ne_str _ today); destruct (int_or 0 _) as [n |]; simpl;
      try (by intros [= _ <-]); rewrite Hc; simpl; discriminate.
Qed.

(** C4.  Stored credits stay a non-negative integer: every ledger
    operation keeps the property on every record, so it holds after any
    sequence of operations on a new store; the balance [_get_credits] reads
    is never negative whatever is stored; [_add_credits] with a zero or
    negative amount leaves the store as it is; and finalizing a [credit] use
    stores [max(0, balance - 1)], so a balance of 0 stays 0. *)
Theorem credits_never_negative :
  (∀ ops, credits_stored_ok (run_ops ops ∅)) ∧
  (∀ op s, credits_stored_ok s → credits_stored_ok (run_op op s)) ∧
  (∀ rec n, _get_credits rec = Ok n → 0 ≤ n) ∧
  (∀ u amount s, amount ≤ 0 → _add_credits u amount s = (Ok tt, s)) ∧
  (∀ u today s s' c,
     _get_credits (user_record s u) = Ok c →
     _finalize_effect_entitlement u (Some "credit") today s = (Ok tt, s') →
     rec_get (user_record s' u) "credits" = JInt (Z.max 0 (c - 1))) ∧
  (∀ u today s,
     _get_credits (user_record s u) = Ok 0 →
     _get_credits
       (user_record (snd (_finalize_effect_entitlement u (Some "credit") today s)) u)
     = Ok 0).
Proof.
  repeat split.
  - intros ops. apply run_ops_credits_ok. intros k rec. by rewrite lookup_empty.
  - intros op s. apply run_op_credits_ok.
  - apply get_credits_nonneg.
  - intros u amount s Hle. unfold _add_credits.
    destruct (Z.leb_spec amount 0); [done | lia].
  - intros u today s s' c Hc Hrun.
    rewrite (finalize_credit_run u today s s' c Hc Hrun).
    by rewrite user_record_insert_eq, rec_get_insert_eq.
  - intros u today s Hc.
    destruct (finalize_credit_store u today s 0 Hc) as [-> | ->]; [done |].
    rewrite user_record_insert_eq. by apply get_credits_set.
Qed.

Lemma credits_never_negative_witness :
  _get_credits
    (user_record (snd (_finalize_effect_entitlement 42 (Some "credit") "2024-05-01" ∅)) 42)
  = Ok 0.
Proof.
  exact (proj2 (proj2 (proj2 (proj2 (proj2 credits_never_negative))))
           42 "2024-05-01" ∅ eq_refl).
Defined.

(** *** Referrals *)

Lemma pretty_N_go_nonempty (x : N) :
  ∀ s : string, s ≠ "" → pretty_N_go x s ≠ "".
Proof.
  induction (N.lt_wf_0 x) as [x _ IH]; intros s Hs.
  destruct (decide (x = 0)%N) as [-> | Hx]; [by rewrite pretty_N_go_0 |].
  rewrite pretty_N_go_step by lia.
  apply IH; [apply N.div_lt; lia | done].
Qed.

Lemma pretty_pos_nonempty (p : positive) : pretty (N.pos p) ≠ "".
Proof.
  unfold pretty, pretty_N. destruct (decide _) as [| _]; [done |].
  rewrite pretty_N_go_step by lia. by apply pretty_N_go_nonempty.
Qed.

Lemma str_nonempty (n : Z) : str n ≠ "".
Proof.
  unfold str, pretty, pretty_Z. destruct n as [| p | p]; [done | |].
  - apply pretty_pos_nonempty.
  - done.
Qed.

Lemma truthy_str (n : Z) : truthy (JStr (str n)) = true.
Proof.
  simpl. destruct (String.eqb_spec (str n) ""); [| done].
  by destruct (str_nonempty n).
Qed.

Lemma apply_referral_rejects (new ref : Z) (s : gmap string json) :
  new ≤ 0 ∨ ref ≤ 0 ∨ new = ref
    ∨ truthy (rec_get (user_record s new) "referred_by") = true →
  _apply_referral new ref s = (Ok false, s).
Proof.
  intros H. unfold _apply_referral.
  destruct (Z.leb_spec new 0); [done |].
  destruct (Z.leb_spec ref 0); [done |]. simpl.
  destruct (Z.eqb_spec new ref); [done |].
  destruct H as [? | [? | [? | Hset]]]; try lia.
  ledger_unfold. unfold user_record in Hset. by rewrite Hset.
Qed.

Lemma apply_referral_run (new ref : Z) (s : gmap string json) (rc cr cn : Z) :
  0 < new → 0 < ref → new ≠ ref →
  truthy (rec_get (user_record s new) "referred_by") = false →
  int_or 0 (rec_get (user_record s ref) "ref_count") = Ok rc →
  _get_credits (user_record s ref) = Ok cr →
  _get_credits (user_record s new) = Ok cn →
  _apply_referral new ref s =
    (Ok true,
     <[str new := JObj (<["credits" := JInt (cn + 2)]>
                          (<["referred_by" := JStr (str ref)]> (user_record s new)))]>
       (<[str ref := JObj (<["credits" := JInt (cr + 5)]>
                             (<["ref_count" := JInt (rc + 1)]> (user_record s ref)))]>
          (<[str new := JObj (<["referred_by" := JStr (str ref)]> (user_record s new))]>
             s))).
Proof.
  intros Hnew Href Hne Hunset Hrc Hcr Hcn. unfold _apply_referral.
  destruct (Z.leb_spec new 0); [lia |].
  destruct (Z.leb_spec ref 0); [lia |]. simpl.
  destruct (Z.eqb_spec new ref); [done |].
  ledger_unfold. unfold user_record in *. rewrite Hunset.
  rewrite lookup_insert_ne by (intros E; by apply str_inj in E).
  rewrite Hrc. simpl.
  rewrite get_credits_other by done. rewrite Hcr. simpl.
  rewrite get_credits_other by done. rewrite Hcn. simpl.
  done.
Qed.

(** C5.  [_apply_referral] answers [False] and leaves the store as it is
    when an id is not positive, when the ids are equal, or when the new
    user's [referred_by] is set (holds a true value).  Otherwise, with
    readable counters, it answers [True] and the store it saves has
    [referred_by] of the new user set to the referrer, the referrer's
    [ref_count] one higher and balance 5 higher, the new user's balance 2
    higher, every other user as before; and any later call for the same new
    user answers [False] and changes nothing. *)
Theorem apply_referral_once (new ref : Z) (s : gmap string json) :
  (new ≤ 0 ∨ ref ≤ 0 ∨ new = ref
     ∨ truthy (rec_get (user_record s new) "referred_by") = true →
   _apply_referral new ref s = (Ok false, s)) ∧
  (∀ rc cr cn,
     0 < new → 0 < ref → new ≠ ref →
     truthy (rec_get (user_record s new) "referred_by") = false →
     int_or 0 (rec_get (user_record s ref) "ref_count") = Ok rc →
     _get_credits (user_record s ref) = Ok cr →
     _get_credits (user_record s new) = Ok cn →
     ∃ s', _apply_referral new ref s = (Ok true, s') ∧
           rec_get (user_record s' new) "referred_by" = JStr (str ref) ∧
           rec_get (user_record s' ref) "ref_count" = JInt (rc + 1) ∧
           _get_credits (user_record s' ref) = Ok (cr + 5) ∧
           _get_credits (user_record s' new) = Ok (cn + 2) ∧
           (∀ k, k ≠ str new → k ≠ str ref → s' !! k = s !! k) ∧
           (∀ ref', _apply_referral new ref' s' = (Ok false, s'))).
Proof.
  split; [apply apply_referral_rejects |].
  intros rc cr cn Hnew Href Hne Hunset Hrc Hcr Hcn.
  eexists. split; [by apply (apply_referral_run new ref s rc cr cn) |].
  pose proof (get_credits_nonneg _ _ Hcr). pose proof (get_credits_nonneg _ _ Hcn).
  repeat split.
  - rewrite user_record_insert_eq. by rewrite rec_get_insert_ne, rec_get_insert_eq.
  - rewrite user_record_insert_ne, user_record_insert_eq by done.
    by rewrite rec_get_insert_ne, rec_get_insert_eq.
  - rewrite user_record_insert_ne, user_record_insert_eq by done.
    apply get_credits_set. lia.
  - rewrite user_record_insert_eq. apply get_credits_set. lia.
  - intros k Hk1 Hk2. by rewrite !lookup_insert_ne.
  - intros ref'. apply apply_referral_rejects. do 3 right.
    rewrite user_record_insert_eq, rec_get_insert_ne, rec_get_insert_eq by done.
    apply truthy_str.
Qed.

Lemma apply_referral_once_witness :
  ∃ s', _apply_referral 42 43 ∅ = (Ok true, s') ∧
        rec_get (user_record s' 42) "referred_by" = JStr (str 43) ∧
        rec_get (user_record s' 43) "ref_count" = JInt 1 ∧
        _get_credits (user_record s' 43) = Ok 5 ∧
        _get_credits (user_record s' 42) = Ok 2 ∧
        (∀ k, k ≠ str 42 → k ≠ str 43 → s' !! k = (∅ : gmap string json) !! k) ∧
        (∀ ref', _apply_referral 42 ref' s' = (Ok false, s')).
Proof.
  apply (proj2 (apply_referral_once 42 43 ∅) 0 0 0); try reflexivity.
  intros H. discriminate H.
Defined.

(** *** Planning and finalizing *)

Lemma free_used_on_code (rec : gmap string json) (today : string) :
  int_or 0 (if py_ne_str (rec_get rec "effects_free_day") today then JInt 0
            else rec_get rec "effects_free_used")
  = free_used_on rec today.
Proof.
  unfold free_used_on.
  destruct (rec_get rec "effects_free_day") as [| | | | day | |]; try done.
  simpl. by destruct (String.eqb day today).
Qed.

Lemma plan_read_only (u now : Z) (today : string) (s : gmap string json) :
  snd (_plan_effect_entitlement u now today s) = s.
Proof.
  unfold _plan_effect_entitlement. ledger_unfold.
  destruct (_is_premium_now _ _) as [[|] |]; simpl; try done.
  destruct (int_or 0 _) as [n |]; simpl; try done.
  destruct (n <? FREE_EFFECTS_PER_DAY); simpl; try done.
  destruct (_get_credits _) as [c |]; simpl; try done.
  by destruct (0 <? c).
Qed.

Lemma plan_premium (u now : Z) (today : string) (s : gmap string json) :
  _is_premium_now (user_record s u) now = Ok true →
  _plan_effect_entitlement u now today s = (Ok (Some "premium"), s).
Proof.
  intros Hp. unfold _plan_effect_entitlement, user_record in *. ledger_unfold.
  by rewrite Hp.
Qed.

Lemma plan_free (u now : Z) (today : string) (s : gmap string json) (used : Z) :
  _is_premium_now (user_record s u) now = Ok false →
  free_used_on (user_record s u) today = Ok used →
  used < FREE_EFFECTS_PER_DAY →
  _plan_effect_entitlement u now today s = (Ok (Some "free"), s).
Proof.
  intros Hp Hused Hlt. rewrite <- free_used_on_code in Hused.
  unfold _plan_effect_entitlement, user_record in *. ledger_unfold.
  rewrite Hp, Hused. by destruct (Z.ltb_spec used FREE_EFFECTS_PER_DAY); [| lia].
Qed.

Lemma plan_paid (u now : Z) (today : string) (s : gmap string json) (used c : Z) :
  _is_premium_now (user_record s u) now = Ok false →
  free_used_on (user_record s u) today = Ok used →
  FREE_EFFECTS_PER_DAY ≤ used →
  _get_credits (user_record s u) = Ok c →
  _plan_effect_entitlement u now today s
    = (Ok (if 0 <? c then Some "credit" else None), s).
Proof.
  intros Hp Hused Hge Hc. rewrite <- free_used_on_code in Hused.
  unfold _plan_effect_entitlement, user_record in *. ledger_unfold.
  rewrite Hp, Hused. destruct (Z.ltb_spec used FREE_EFFECTS_PER_DAY); [lia |].
  rewrite Hc. by destruct (0 <? c).
Qed.

Lemma int_or_finite (rec : gmap string json) (k : string) (d : Z) :
  finite_numbers rec → ∃ n, int_or d (rec_get rec k) = Ok n.
Proof.
  intros Hfin. unfold rec_get, int_or.
  destruct (rec !! k) as [[| b | n | f | | |] |] eqn:E; simpl; eauto.
  destruct (Hfin k f E) as [q ->]. eauto.
Qed.

Lemma views_readable (rec : gmap string json) (now : Z) (today : string) :
  finite_numbers rec →
  ∃ p used c, _is_premium_now rec now = Ok p ∧
              free_used_on rec today = Ok used ∧
              _get_credits rec = Ok c.
Proof.
  intros Hfin.
  assert (∃ p, _is_premium_now rec now = Ok p) as [p Hp].
  { destruct (int_or_finite rec "premium_until" 0 Hfin) as [n Hn].
    unfold _is_premium_now, int_or in *.
    destruct (as_number _); [rewrite Hn |]; simpl; eauto. }
  assert (∃ used, free_used_on rec today = Ok used) as [used Hused].
  { destruct (int_or_finite rec "effects_free_used" 0 Hfin) as [m Hm].
    unfold free_used_on.
    destruct (rec_get rec "effects_free_day") as [| | | | day | |]; eauto.
    destruct (String.eqb day today); eauto. }
  assert (∃ c, _get_credits rec = Ok c) as [c Hc].
  { destruct (int_or_finite rec "credits" 0 Hfin) as [m Hm].
    unfold _get_credits, int_or in *.
    destruct (as_number _); [rewrite Hm |]; simpl; eauto. }
  eauto 10.
Qed.

(** C6.  [_plan_effect_entitlement] never changes the store, so planning
    again sees the same store and gives the same answer.  On a record whose
    numbers are finite it returns the decision of the design: [premium]
    when premium is active; else [free] when the free uses counted for
    today (0 for a stale day) are below the daily limit of 2; else [credit]
    when the balance is positive; else [None]. *)
Theorem plan_decides_read_only (u now : Z) (today : string) (s : gmap string json) :
  FREE_EFFECTS_PER_DAY = 2 ∧
  snd (_plan_effect_entitlement u now today s) = s ∧
  _plan_effect_entitlement u now today (snd (_plan_effect_entitlement u now today s))
    = _plan_effect_entitlement u now today s ∧
  (finite_numbers (user_record s u) →
   ∃ premium used credits,
     _is_premium_now (user_record s u) now = Ok premium ∧
     free_used_on (user_record s u) today = Ok used ∧
     _get_credits (user_record s u) = Ok credits ∧
     _plan_effect_entitlement u now today s
       = (Ok (spec_plan premium used credits), s)) ∧
  (_is_premium_now (user_record s u) now = Ok true →
   fst (_plan_effect_entitlement u now today s) = Ok (Some "premium")) ∧
  (∀ used,
     _is_premium_now (user_record s u) now = Ok false →
     free_used_on (user_record s u) today = Ok used →
     (used < 2 →
      fst (_plan_effect_entitlement u now today s) = Ok (Some "free")) ∧
     (∀ c, 2 ≤ used → _get_credits (user_record s u) = Ok c →
        (0 < c → fst (_plan_effect_entitlement u now today s) = Ok (Some "credit")) ∧
        (c ≤ 0 → fst (_plan_effect_entitlement u now today s) = Ok None))).
Proof.
  split; [done |]. split; [apply plan_read_only |].
  split; [by rewrite plan_read_only |].
  split.
  { intros Hfin.
    destruct (views_readable _ now today Hfin) as (p & used & c & Hp & Hused & Hc).
    exists p, used, c. repeat split; try done. unfold spec_plan.
    destruct p; [by apply plan_premium |].
    destruct (Z.ltb_spec used 2); [by apply (plan_free u now today s used) |].
    by apply (plan_paid u now today s used c). }
  split; [intros Hp; by rewrite plan_premium |].
  intros used Hp Hused. split.
  - intros Hlt. by rewrite (plan_free u now today s used).
  - intros c Hge Hc. rewrite (plan_paid u now today s used c) by done. simpl.
    split; intros Hc0.
    + by destruct (Z.ltb_spec 0 c); [| lia].
    + by destruct (Z.ltb_spec 0 c); [lia |].
Qed.

Lemma plan_decides_read_only_witness :
  fst (_plan_effect_entitlement 42 1000 "2024-05-01" store_quota_spent)
  = Ok (Some "credit").
Proof.
  destruct (plan_decides_read_only 42 1000 "2024-05-01" store_quota_spent)
    as (_ & _ & _ & _ & _ & Hcases).
  apply (proj2 (Hcases 2 eq_refl eq_refl) 3); [discriminate | reflexivity |].
  reflexivity.
Defined.

Lemma is_premium_other (rec : gmap string json) (f : string) (v : json) (now : Z) :
  f ≠ "premium_until" → _is_premium_now (<[f := v]> rec) now = _is_premium_now rec now.
Proof. intros. unfold _is_premium_now. by rewrite rec_get_insert_ne. Qed.

Lemma finalize_free_run (u : Z) (today : string) (s : gmap string json) (used : Z) :
  free_used_on (user_record s u) today = Ok used →
  _finalize_effect_entitlement u (Some "free") today s
    = (Ok tt, <[str u := JObj (free_use_recorded (user_record s u) today used)]> s).
Proof.
  unfold free_used_on, _finalize_effect_entitlement, free_use_recorded, user_record.
  simpl. ledger_unfold.
  destruct (rec_get _ "effects_free_day") as [| | | | day | |] eqn:Eday; simpl;
    try (by intros [= <-]).
  destruct (String.eqb_spec day today) as [-> | Hne]; simpl.
  - intros ->. done.
  - by intros [= <-].
Qed.

Lemma free_used_on_recorded (rec : gmap string json) (today : string) (used : Z) :
  free_used_on (free_use_recorded rec today used) today = Ok (used + 1).
Proof.
  unfold free_used_on, free_use_recorded.
  rewrite rec_get_insert_ne, rec_get_insert_eq by done.
  rewrite String.eqb_refl. by rewrite rec_get_insert_eq.
Qed.

Lemma free_used_on_stale (rec : gmap string json) (day today : string) :
  rec_get rec "effects_free_day" = JStr day → today ≠ day →
  free_used_on rec today = Ok 0.
Proof.
  intros Hday Hne. unfold free_used_on. rewrite Hday.
  destruct (String.eqb_spec day today); [by subst |]. done.
Qed.

Lemma is_premium_recorded (rec : gmap string json) (today : string) (used now : Z) :
  _is_premium_now (free_use_recorded rec today used) now = _is_premium_now rec now.
Proof. unfold free_use_recorded. by rewrite !is_premium_other. Qed.

Lemma get_credits_recorded (rec : gmap string json) (today : string) (used : Z) :
  _get_credits (free_use_recorded rec today used) = _get_credits rec.
Proof. unfold free_use_recorded. by rewrite !get_credits_other. Qed.

(** C7.  For a user whose free uses counted for day [D] are [used]:
    finalizing a [free] use on [D] stores the day [D] and the counter
    [used + 1], where [used] is 0 whenever the stored day is another day.
    From a day [D] without free uses yet, and while premium is not active:
    [plan] answers [free], and again after one finalized free use; after the
    second it answers [credit] when the balance is positive and [None]
    otherwise; and on any other day [D'] it answers [free] again.  Whatever
    the counter stored for [D] holds, [plan] on another day answers [free]
    while premium is not active. *)
Theorem free_quota_resets_daily (u : Z) (D : string) (s : gmap string json) :
  (∀ used,
     free_used_on (user_record s u) D = Ok used →
     ∃ s', _finalize_effect_entitlement u (Some "free") D s = (Ok tt, s') ∧
           rec_get (user_record s' u) "effects_free_day" = JStr D ∧
           rec_get (user_record s' u) "effects_free_used" = JInt (used + 1)) ∧
  (∀ day, rec_get (user_record s u) "effects_free_day" = JStr day → D ≠ day →
     free_used_on (user_record s u) D = Ok 0) ∧
  (free_used_on (user_record s u) D = Ok 0 →
   ∃ s1 s2,
     _finalize_effect_entitlement u (Some "free") D s = (Ok tt, s1) ∧
     _finalize_effect_entitlement u (Some "free") D s1 = (Ok tt, s2) ∧
     ∀ now, _is_premium_now (user_record s u) now = Ok false →
       _plan_effect_entitlement u now D s = (Ok (Some "free"), s) ∧
       _plan_effect_entitlement u now D s1 = (Ok (Some "free"), s1) ∧
       (∀ c, _get_credits (user_record s u) = Ok c →
          _plan_effect_entitlement u now D s2
            = (Ok (if 0 <? c then Some "credit" else None), s2)) ∧
       (∀ D', D' ≠ D →
          _plan_effect_entitlement u now D' s2 = (Ok (Some "free"), s2))) ∧
  (∀ now D',
     rec_get (user_record s u) "effects_free_day" = JStr D → D' ≠ D →
     _is_premium_now (user_record s u) now = Ok false →
     _plan_effect_entitlement u now D' s = (Ok (Some "free"), s)).
Proof.
  split; [| split; [| split]]; cycle 3.
  { intros now D' Hday Hne Hp. apply (plan_free u now D' s 0); try done.
    by apply (free_used_on_stale _ D). }
  - intros used Hused. eexists. split; [by apply finalize_free_run |].
    rewrite user_record_insert_eq. unfold free_use_recorded.
    by rewrite rec_get_insert_ne, !rec_get_insert_eq.
  - intros day Hday Hne. by apply (free_used_on_stale _ day).
  - intros Hfresh.
    set (r1 := free_use_recorded (user_record s u) D 0).
    set (s1 := <[str u := JObj r1]> s).
    set (r2 := free_use_recorded r1 D (0 + 1)).
    set (s2 := <[str u := JObj r2]> s1).
    assert (user_record s1 u = r1) as Hr1 by apply user_record_insert_eq.
    assert (user_record s2 u = r2) as Hr2 by apply user_record_insert_eq.
    assert (free_used_on r1 D = Ok (0 + 1)) as Hu1 by apply free_used_on_recorded.
    assert (free_used_on r2 D = Ok (0 + 1 + 1)) as Hu2 by apply free_used_on_recorded.
    exists s1, s2. split; [by apply finalize_free_run |].
    split.
    { pose proof (finalize_free_run u D s1 (0 + 1)) as Hrun.
      rewrite Hr1 in Hrun. by apply Hrun. }
    intros now Hp.
    assert (_is_premium_now r1 now = Ok false) as Hp1
      by (unfold r1; by rewrite is_premium_recorded).
    assert (_is_premium_now r2 now = Ok false) as Hp2
      by (unfold r2; by rewrite is_premium_recorded).
    split; [by apply (plan_free u now D s 0) |].
    split; [apply (plan_free u now D s1 (0 + 1)); by rewrite ?Hr1 |].
    split.
    + intros c Hc. apply (plan_paid u now D s2 (0 + 1 + 1)); rewrite ?Hr2; try done.
      unfold r2, r1. by rewrite !get_credits_recorded.
    + intros D' Hne. apply (plan_free u now D' s2 0); rewrite ?Hr2; try done.
      apply (free_used_on_stale _ D); [| done].
      unfold r2, free_use_recorded.
      by rewrite rec_get_insert_ne, rec_get_insert_eq.
Qed.

Lemma free_quota_resets_daily_witness :
  ∃ s1 s2,
    _finalize_effect_entitlement 42 (Some "free") "2024-05-01" ∅ = (Ok tt, s1) ∧
    _finalize_effect_entitlement 42 (Some "free") "2024-05-01" s1 = (Ok tt, s2) ∧
    _plan_effect_entitlement 42 1000 "2024-05-01" ∅ = (Ok (Some "free"), ∅) ∧
    _plan_effect_entitlement 42 1001 "2024-05-01" s1 = (Ok (Some "free"), s1) ∧
    _plan_effect_entitlement 42 1002 "2024-05-01" s2 = (Ok None, s2) ∧
    _plan_effect_entitlement 42 90000 "2024-05-02" s2 = (Ok (Some "free"), s2).
Proof.
  destruct (proj1 (proj2 (proj2 (free_quota_resets_daily 42 "2024-05-01" ∅))))
    as (s1 & s2 & H1 & H2 & H); [reflexivity |].
  exists s1, s2. split; [exact H1 |]. split; [exact H2 |].
  split; [apply (H 1000); reflexivity |].
  split; [apply (H 1001); reflexivity |].
  split; [apply (proj1 (proj2 (proj2 (H 1002 ltac:(reflexivity)))) 0); reflexivity |].
  apply (H 90000); [reflexivity | discriminate].
Defined.

(** *** Payments *)

Lemma add_credits_frame (u amount : Z) (s : gmap string json) (k : string) :
  k ≠ str u → snd (_add_credits u amount s) !! k = s !! k.
Proof.
  intros Hk. unfold _add_credits.
  destruct (amount <=? 0); [done |].
  ledger_unfold. destruct (int_or 0 _); simpl; [| done].
  by rewrite lookup_insert_ne.
Qed.

Lemma handler_without_payload (py_int_of_str : string → option Z)
    (upd : update) (now : Z) (s : gmap string json) :
  invoice_payload_of upd = None →
  successful_payment_handler py_int_of_str upd now s = (Ok tt, s).
Proof.
  unfold invoice_payload_of, successful_payment_handler.
  destruct (update_msg upd) as [msg |]; simpl; [| done].
  destruct (effective_user upd) as [sender |]; [| done].
  destruct (successful_payment msg) as [sp |]; simpl; [| done].
  by intros ->.
Qed.

Lemma handler_with_payload (py_int_of_str : string → option Z)
    (upd : update) (now : Z) (s : gmap string json) (payload : string) :
  invoice_payload_of upd = Some payload →
  successful_payment_handler py_int_of_str upd now s =
    match effective_user upd with
    | None => (Ok tt, s)
    | Some sender =>
        if negb (String.prefix "cx|" payload) then (Ok tt, s)
        else if (length (split_on "|" payload) <? 3)%nat then (Ok tt, s)
        else
          let product := nth 1 (split_on "|" payload) EmptyString in
          if String.eqb product "premium_30d" then
            _grant_premium (id sender) PREMIUM_DURATION_SECONDS now s
          else if String.eqb product "credits_10" then _add_credits (id sender) 10 s
          else if String.eqb product "credits_50" then _add_credits (id sender) 50 s
          else (Ok tt, s)
    end.
Proof.
  unfold invoice_payload_of, successful_payment_handler.
  destruct (update_msg upd) as [msg |]; simpl; [| done].
  destruct (successful_payment msg) as [sp |]; simpl; [| done].
  intros ->. destruct (effective_user upd) as [sender |]; [| done].
  destruct (negb (String.prefix "cx|" payload)); [done |].
  destruct (length (split_on "|" payload) <? 3)%nat; [done |].
  set (target := match py_int_of_str _ with Some n => n | None => id sender end).
  assert ((if negb (target =? id sender) then id sender else target) = id sender)
    as -> by (destruct (Z.eqb_spec target (id sender)); simpl; congruence).
  by repeat destruct (String.eqb _ _).
Qed.

(** C10.  Whatever the payload says, [successful_payment_handler] changes
    no record but the sender's.  With a payload that starts with [cx|] and
    splits into at least three parts, the product named by the second part
    is delivered to the sender: 30 days of premium, 10 credits or 50
    credits, and nothing for any other product.  A payload that does not
    start with [cx|], or has fewer than three parts, or no payload at all,
    leaves the store as it is. *)
Theorem payment_goes_to_sender (py_int_of_str : string → option Z)
    (upd : update) (now : Z) (s : gmap string json) :
  (∀ sender k, effective_user upd = Some sender → k ≠ str (id sender) →
     snd (successful_payment_handler py_int_of_str upd now s) !! k = s !! k) ∧
  (∀ sender payload first product embedded rest,
     effective_user upd = Some sender →
     invoice_payload_of upd = Some payload →
     String.prefix "cx|" payload = true →
     split_on "|" payload = first :: product :: embedded :: rest →
     successful_payment_handler py_int_of_str upd now s =
       if String.eqb product "premium_30d" then
         _grant_premium (id sender) PREMIUM_DURATION_SECONDS now s
       else if String.eqb product "credits_10" then _add_credits (id sender) 10 s
       else if String.eqb product "credits_50" then _add_credits (id sender) 50 s
       else (Ok tt, s)) ∧
  (∀ payload,
     invoice_payload_of upd = Some payload →
     String.prefix "cx|" payload = false ∨ (length (split_on "|" payload) < 3)%nat →
     successful_payment_handler py_int_of_str upd now s = (Ok tt, s)) ∧
  (invoice_payload_of upd = None ∨ effective_user upd = None →
   successful_payment_handler py_int_of_str upd now s = (Ok tt, s)).
Proof.
  split; [| split; [| split]].
  - intros sender k Hsender Hk.
    destruct (invoice_payload_of upd) as [payload |] eqn:Hpay.
    + rewrite (handler_with_payload _ _ _ _ payload Hpay), Hsender.
      destruct (negb _); [done |]. destruct (_ <? _)%nat; [done |]. simpl.
      destruct (String.eqb _ "premium_30d"); [by apply grant_premium_frame |].
      destruct (String.eqb _ "credits_10"); [by apply add_credits_frame |].
      destruct (String.eqb _ "credits_50"); [by apply add_credits_frame |].
      done.
    + by rewrite handler_without_payload.
  - intros sender payload first product embedded rest Hsender Hpay Hcx Hparts.
    rewrite (handler_with_payload _ _ _ _ payload Hpay), Hsender, Hcx, Hparts.
    done.
  - intros payload Hpay Hbad.
    rewrite (handler_with_payload _ _ _ _ payload Hpay).
    destruct (effective_user upd); [| done].
    destruct Hbad as [-> | Hlen]; [done |].
    destruct (negb _); [done |].
    by destruct (Nat.ltb_spec (length (split_on "|" payload)) 3); [| lia].
  - intros [Hnone | Hnone].
    + by apply handler_without_payload.
    + destruct (invoice_payload_of upd) as [payload |] eqn:Hpay.
      * by rewrite (handler_with_payload _ _ _ _ payload Hpay), Hnone.
      * by apply handler_without_payload.
Qed.

Lemma payment_goes_to_sender_witness :
  successful_payment_handler (λ _, Some 9) payment_by_7_for_9 1000 ∅
    = _add_credits 7 10 ∅ ∧
  snd (successful_payment_handler (λ _, Some 9) payment_by_7_for_9 1000 ∅) !! str 9
    = (∅ : gmap string json) !! str 9.
Proof.
  split.
  - exact (proj1 (proj2 (payment_goes_to_sender (λ _, Some 9) payment_by_7_for_9 1000 ∅))
             {| id := 7 |} "cx|credits_10|9" "cx" "credits_10" "9" []
             eq_refl eq_refl eq_refl eq_refl).
  - apply (proj1 (payment_goes_to_sender (λ _, Some 9) payment_by_7_for_9 1000 ∅)
             {| id := 7 |}); [reflexivity |].
    intros H. apply str_inj in H. discriminate H.
Defined.

(** *** Loading the store *)

(** C8.  [_load_user_store_sync] can raise.  [exists()] is called before
    the [try]: an [OSError] of the existence check, the [PermissionError]
    of a store path under a directory that denies search, leaves the
    function as it is, whatever the decoder.  The same error raised by
    [read_text], inside the [try], is swallowed and loads as the empty
    store. *)
Theorem load_raises_when_exists_fails (json_loads : string → result json) :
  _load_user_store_sync json_loads denied_path = Raise OSError ∧
  (∀ e read,
     _load_user_store_sync json_loads {| path_exists := Raise e; read_text := read |}
     = Raise e) ∧
  _load_user_store_sync json_loads unreadable_file = Ok ∅.
Proof. by repeat split. Qed.

(** *** Progress relay *)

Lemma schedule_submits (text : string) (now : Q) (last last' : hook_state) (edit : string) :
  _schedule text now last = (last', Some edit) →
  edit = text ∧ last' = {| last_t := now; last_text := text |} ∧
  text ≠ "" ∧ text ≠ last_text last ∧ (last_t last + 1 <= now)%Q.
Proof.
  unfold _schedule.
  destruct (String.eqb_spec text ""); simpl; [done |].
  destruct (String.eqb_spec text (last_text last)); simpl; [done |].
  destruct (Qlt_le_dec (now - last_t last) 1) as [Hlt | Hge]; [done |].
  intros [= <- <-]. repeat split; try done. lra.
Qed.

Lemma schedule_skips (text : string) (now : Q) (last last' : hook_state) :
  _schedule text now last = (last', None) → last' = last.
Proof.
  unfold _schedule. destruct (_ || _); [by intros [= <-] |].
  destruct (Qlt_le_dec _ _); [by intros [= <-] | done].
Qed.

Lemma hook_submits (render : string → string → gmap string json → string)
    (lang kind : string) (d : gmap string json) (now : Q)
    (last last' : hook_state) (edit : string) :
  hook render lang kind d now last = (last', Some edit) →
  last' = {| last_t := now; last_text := edit |} ∧
  edit ≠ "" ∧ edit ≠ last_text last ∧ (last_t last + 1 <= now)%Q.
Proof.
  unfold hook.
  destruct (py_eq_str _ "downloading").
  - intros H. apply schedule_submits in H as (-> & -> & ? & ? & ?). done.
  - destruct (py_eq_str _ "finished"); [| done].
    intros H. apply schedule_submits in H as (-> & -> & ? & ? & ?). done.
Qed.

Lemma hook_skips (render : string → string → gmap string json → string)
    (lang kind : string) (d : gmap string json) (now : Q) (last last' : hook_state) :
  hook render lang kind d now last = (last', None) → last' = last.
Proof.
  unfold hook.
  destruct (py_eq_str _ "downloading"); [apply schedule_skips |].
  destruct (py_eq_str _ "finished"); [apply schedule_skips |].
  by intros [= <-].
Qed.

Lemma run_hook_debounced (render : string → string → gmap string json → string)
    (lang kind : string) (events : list (Q * gmap string json)) :
  ∀ last,
    Forall (λ e, (last_t last + 1 <= fst e)%Q) (run_hook render lang kind events last) ∧
    StronglySorted a_second_apart (run_hook render lang kind events last) ∧
    texts_change (last_text last) (run_hook render lang kind events last) ∧
    Forall (λ e, snd e ≠ "") (run_hook render lang kind events last).
Proof.
  induction events as [| [now d] rest IH]; intros last; simpl.
  - repeat split; constructor.
  - destruct (hook render lang kind d now last) as [last' [edit |]] eqn:Hhook.
    + apply hook_submits in Hhook as (-> & Hne & Hdiff & Hgap).
      destruct (IH {| last_t := now; last_text := edit |}) as (Hall & Hsorted & Htexts & Hnon).
      simpl in *. repeat split.
      * constructor; [done |].
        eapply Forall_impl; [exact Hall |]. intros e He. simpl in He. lra.
      * constructor; [done |]. exact Hall.
      * done.
      * done.
      * by constructor.
    + apply hook_skips in Hhook as ->. apply IH.
Qed.

(** C9.  Of the edits one progress hook submits for any sequence of
    callbacks, any two are at least one second of the monotonic clock
    apart, every edit's text differs from the text of the edit submitted
    before it, and no edit is empty. *)
Theorem progress_edits_debounced
    (render : string → string → gmap string json → string)
    (lang kind : string) (events : list (Q * gmap string json)) :
  StronglySorted a_second_apart (run_hook render lang kind events hook_init) ∧
  texts_change "" (run_hook render lang kind events hook_init) ∧
  Forall (λ e, snd e ≠ "") (run_hook render lang kind events hook_init).
Proof.
  destruct (run_hook_debounced render lang kind events hook_init)
    as (_ & Hsorted & Htexts & Hnon).
  done.
Qed.

(** *** Look-transfer parameters *)

Lemma clamp_bounds (v lo hi : Q) :
  (lo <= hi → lo <= _clamp v lo hi ∧ _clamp v lo hi <= hi)%Q.
Proof.
  intros Hle. unfold _clamp.
  destruct (Qlt_le_dec v lo); [split; lra |].
  destruct (Qlt_le_dec hi v); split; lra.
Qed.

Lemma clamp_inside (v lo hi : Q) :
  (lo <= v → v <= hi → _clamp v lo hi = v)%Q.
Proof.
  intros Hlo Hhi. unfold _clamp.
  destruct (Qlt_le_dec v lo); [lra |].
  destruct (Qlt_le_dec hi v) as [Hlt |]; [| done].
  exfalso. lra.
Qed.

Lemma clamp_is_spec_clamp (v lo hi : Q) :
  (lo <= hi → _clamp v lo hi == spec_clamp v lo hi)%Q.
Proof.
  intros Hle. unfold _clamp, spec_clamp.
  destruct (Qlt_le_dec v lo).
  - rewrite (Q.min_r hi v) by lra. rewrite Q.max_l by lra. reflexivity.
  - destruct (Qlt_le_dec hi v).
    + rewrite (Q.min_l hi v) by lra. rewrite Q.max_r by lra. reflexivity.
    + rewrite (Q.min_r hi v) by lra. rewrite Q.max_r by lra. reflexivity.
Qed.

Lemma py_max_is_max (a b : Q) : (py_max a b == Qmax a b)%Q.
Proof.
  unfold py_max. destruct (Qlt_le_dec a b).
  - rewrite Q.max_r by lra. reflexivity.
  - rewrite Q.max_l by lra. reflexivity.
Qed.

Lemma py_max_floor (x : Q) : (1 <= py_max 1 x)%Q.
Proof. unfold py_max. destruct (Qlt_le_dec 1 x); lra. Qed.

Lemma ratio_to_itself (x : Q) : (1 <= x → x / py_max 1 x == 1)%Q.
Proof.
  intros Hx. unfold py_max. destruct (Qlt_le_dec 1 x).
  - field. lra.
  - assert (x == 1)%Q as -> by lra. reflexivity.
Qed.

Lemma clamp_of_quotient (x y lo hi : Q) :
  (lo <= hi → _clamp (x / py_max 1 y) lo hi == spec_clamp (x / Qmax 1 y) lo hi)%Q.
Proof.
  intros Hle. rewrite clamp_is_spec_clamp by done. unfold spec_clamp.
  apply Q.max_compat; [reflexivity |].
  apply Q.min_compat; [reflexivity |].
  apply Qdiv_comp; [reflexivity | apply py_max_is_max].
Qed.

(** C2 (as amended).  For source and reference statistics with finite
    fields, the non-negative ones of the claim among them,
    [_compute_eq_params] returns the three clamped quotients of the design,
    each within its bounds; and for equal source and reference statistics
    whose [yrange] and [crange] are at least 1, as [_extract_signalstats]
    floors them, the result is [(0, 1, 1)]. *)
Theorem compute_eq_params_clamped (src ref : gmap string Q) :
  ∃ b c s,
    _compute_eq_params src ref = (b, c, s) ∧
    (b == spec_clamp ((stat_get ref "yavg" 0 - stat_get src "yavg" 0) / 255)
            (- (35 # 100)) (35 # 100))%Q ∧
    (c == spec_clamp (stat_get ref "yrange" 1 / Qmax 1 (stat_get src "yrange" 1))
            (7 # 10) (16 # 10))%Q ∧
    (s == spec_clamp (stat_get ref "crange" 1 / Qmax 1 (stat_get src "crange" 1))
            (6 # 10) (18 # 10))%Q ∧
    (- (35 # 100) <= b ∧ b <= 35 # 100)%Q ∧
    (7 # 10 <= c ∧ c <= 16 # 10)%Q ∧
    (6 # 10 <= s ∧ s <= 18 # 10)%Q ∧
    (src = ref →
     (1 <= stat_get src "yrange" 1)%Q → (1 <= stat_get src "crange" 1)%Q →
     (b == 0 ∧ c == 1 ∧ s == 1)%Q) ∧
    (∀ values, src = signalstats_of_values values → ref = src →
     (b == 0 ∧ c == 1 ∧ s == 1)%Q).
Proof.
  assert (∀ x : Q, (1 <= x → _clamp (x / py_max 1 x) (7 # 10) (16 # 10) == 1)%Q) as Hc.
  { intros x Hx. rewrite clamp_inside; rewrite ratio_to_itself by done; lra. }
  assert (∀ x : Q, (1 <= x → _clamp (x / py_max 1 x) (6 # 10) (18 # 10) == 1)%Q) as Hs.
  { intros x Hx. rewrite clamp_inside; rewrite ratio_to_itself by done; lra. }
  assert (∀ x : Q, (_clamp ((x - x) / 255) (- (35 # 100)) (35 # 100) == 0)%Q) as Hb.
  { intros x. assert ((x - x) / 255 == 0)%Q as Hz by field.
    rewrite clamp_inside; rewrite Hz; lra. }
  unfold _compute_eq_params. do 3 eexists. split; [reflexivity |].
  split; [apply clamp_is_spec_clamp; lra |].
  split; [apply clamp_of_quotient; lra |].
  split; [apply clamp_of_quotient; lra |].
  split; [apply clamp_bounds; lra |].
  split; [apply clamp_bounds; lra |].
  split; [apply clamp_bounds; lra |].
  split.
  - intros <- Hy Hcr. auto.
  - intros values -> ->. split; [apply Hb |].
    unfold signalstats_of_values, stat_get.
    rewrite lookup_insert_ne, lookup_insert_eq by done. rewrite lookup_insert_eq.
    simpl. split; [apply Hc | apply Hs]; apply py_max_floor.
Qed.

Lemma compute_eq_params_clamped_witness :
  ∃ b c s, _compute_eq_params graded_stats graded_stats = (b, c, s) ∧
           (b == 0 ∧ c == 1 ∧ s == 1)%Q.
Proof.
  destruct (compute_eq_params_clamped graded_stats graded_stats)
    as (b & c & s & Hrun & _ & _ & _ & _ & _ & _ & Hsame & _).
  exists b, c, s. split; [exact Hrun |].
  apply Hsame; [reflexivity | |]; vm_compute; discriminate.
Defined.

(** C2 (as stated) fails: non-negative statistics with ranges below 1,
    equal for source and reference, give contrast 0.7 and saturation 0.6,
    not 1. *)
Lemma compute_eq_params_equal_counterexample :
  (∀ k x, flat_stats !! k = Some x → (0 <= x)%Q) ∧
  ∃ b c s, _compute_eq_params flat_stats flat_stats = (b, c, s) ∧
           (c == 7 # 10)%Q ∧ (s == 6 # 10)%Q ∧ ¬ (c == 1)%Q ∧ ¬ (s == 1)%Q.
Proof.
  split.
  - intros k x. unfold flat_stats. rewrite !lookup_insert.
    repeat case_decide; intros [= <-]; vm_compute; discriminate.
  - do 3 eexists. split; [vm_compute; reflexivity |].
    repeat split; vm_compute; discriminate.
Qed.

(** *** Applying the filter *)

Lemma apply_eq_cmd_options (exe in_path out_path : string) (b c s : Q) :
  parse_options (tail (apply_eq_cmd exe in_path out_path b c s)) =
    [ ("-i", in_path); ("-map", "0:v:0"); ("-map", "0:a?");
      ("-vf", eq_filter b c s);
      ("-c:v", "libx264"); ("-preset", "veryfast"); ("-crf", "23");
      ("-c:a", "aac"); ("-b:a", "128k"); ("-movflags", "+faststart") ].
Proof.
  unfold apply_eq_cmd. simpl.
  destruct (is_flag out_path); [done |].
  by destruct (String.prefix "-" out_path).
Qed.

(** C1 (as amended).  The command [_apply_eq_filter] runs takes the first
    video stream of the input and its audio streams if there are any,
    applies the [eq] filter with the three values to the video stream and
    no filter to the audio, encodes the video with libx264 and the audio
    anew with AAC at 128k (it is not passed through), and writes a
    fast-start file; a non-zero exit status of the transcoder raises
    [CalledProcessError], a zero status returns normally, and a transcoder
    that cannot be started raises. *)
Theorem apply_eq_filter_reencodes (run_process : list string → result Z)
    (exe in_path out_path : string) (b c s : Q) :
  option_values "-i" (apply_eq_cmd exe in_path out_path b c s) = [in_path] ∧
  option_values "-map" (apply_eq_cmd exe in_path out_path b c s) = ["0:v:0"; "0:a?"] ∧
  option_values "-vf" (apply_eq_cmd exe in_path out_path b c s) = [eq_filter b c s] ∧
  option_values "-af" (apply_eq_cmd exe in_path out_path b c s) = [] ∧
  option_values "-filter:a" (apply_eq_cmd exe in_path out_path b c s) = [] ∧
  option_values "-filter_complex" (apply_eq_cmd exe in_path out_path b c s) = [] ∧
  option_values "-c:v" (apply_eq_cmd exe in_path out_path b c s) = ["libx264"] ∧
  option_values "-c:a" (apply_eq_cmd exe in_path out_path b c s) = ["aac"] ∧
  option_values "-b:a" (apply_eq_cmd exe in_path out_path b c s) = ["128k"] ∧
  option_values "-movflags" (apply_eq_cmd exe in_path out_path b c s) = ["+faststart"] ∧
  last (apply_eq_cmd exe in_path out_path b c s) = Some out_path ∧
  audio_passthrough (apply_eq_cmd exe in_path out_path b c s) = false ∧
  (∀ rc, run_process (apply_eq_cmd exe in_path out_path b c s) = Ok rc → rc ≠ 0 →
     _apply_eq_filter run_process exe in_path out_path b c s
       = Raise (CalledProcessError rc)) ∧
  (run_process (apply_eq_cmd exe in_path out_path b c s) = Ok 0 →
   _apply_eq_filter run_process exe in_path out_path b c s = Ok tt) ∧
  (∀ e, run_process (apply_eq_cmd exe in_path out_path b c s) = Raise e →
     _apply_eq_filter run_process exe in_path out_path b c s = Raise e).
Proof.
  unfold audio_passthrough, option_values.
  rewrite apply_eq_cmd_options.
  repeat split; try done.
  - intros rc Hrun Hrc. unfold _apply_eq_filter, subprocess_run.
    rewrite Hrun. simpl. by destruct (Z.eqb_spec rc 0).
  - intros Hrun. unfold _apply_eq_filter, subprocess_run. by rewrite Hrun.
  - intros e Hrun. unfold _apply_eq_filter, subprocess_run. by rewrite Hrun.
Qed.

Lemma apply_eq_filter_reencodes_witness :
  _apply_eq_filter (λ _, Ok 1) "ffmpeg" "in.mp4" "out.mp4" (1 # 10) 1 1
    = Raise (CalledProcessError 1).
Proof.
  destruct (apply_eq_filter_reencodes (λ _, Ok 1)
              "ffmpeg" "in.mp4" "out.mp4" (1 # 10) 1 1)
    as (_ & _ & _ & _ & _ & _ & _ & _ & _ & _ & _ & _ & Hfail & _).
  apply Hfail; [reflexivity | discriminate].
Defined.

(** C1 (as stated) fails on the audio stream: the command names the codec
    [aac] with a bit rate for it, and not [copy], so a present audio stream
    is decoded and encoded anew. *)
Lemma apply_eq_audio_counterexample :
  option_values "-c:a"
    (apply_eq_cmd "ffmpeg" "in.mp4" "out.mp4" (1 # 10) 1 1) = ["aac"] ∧
  audio_passthrough (apply_eq_cmd "ffmpeg" "in.mp4" "out.mp4" (1 # 10) 1 1) ≠ true.
Proof. split; [reflexivity |]. vm_compute. discriminate. Qed.

(** ** Further properties of the code *)

(** *** Saving the store *)

(** X1.  A save that meets no fault leaves a store file from which
    [_load_user_store_sync] returns the saved store (for an encoder and a
    decoder that round-trip on it), removes the temporary file and touches
    no other path; a save that meets a fault raises and leaves the store
    file exactly as it was, so that loading still returns what it returned
    before. *)
Theorem save_is_atomic (json_dumps : gmap string json → string)
    (json_loads : string → result json)
    (faults : save_faults) (store : gmap string json) (fs : gmap string string) :
  (write_fault faults = None → replace_fault faults = false →
   json_dumps store ≠ "" → json_loads (json_dumps store) = Ok (JObj store) →
   ∃ fs', _save_user_store_sync json_dumps faults store fs = (Ok tt, fs') ∧
          _load_user_store_sync json_loads (file_at fs' USER_STORE_PATH) = Ok store ∧
          fs' !! USER_STORE_TMP = None ∧
          ∀ path, path ≠ USER_STORE_PATH → path ≠ USER_STORE_TMP →
                  fs' !! path = fs !! path) ∧
  (write_fault faults ≠ None ∨ replace_fault faults = true →
   ∃ e fs', _save_user_store_sync json_dumps faults store fs = (Raise e, fs') ∧
            fs' !! USER_STORE_PATH = fs !! USER_STORE_PATH ∧
            _load_user_store_sync json_loads (file_at fs' USER_STORE_PATH)
              = _load_user_store_sync json_loads (file_at fs USER_STORE_PATH)).
Proof.
  unfold _save_user_store_sync. split.
  - intros -> -> Hne Hround. eexists. split; [reflexivity |].
    split; [| split].
    + unfold _load_user_store_sync, file_at. rewrite lookup_insert_eq. simpl.
      destruct (String.eqb_spec (json_dumps store) ""); [done |]. simpl.
      by rewrite Hround.
    + rewrite lookup_insert_ne by done. apply lookup_delete_eq.
    + intros path H1 H2. rewrite lookup_insert_ne by done.
      rewrite lookup_delete_ne by done. by rewrite lookup_insert_ne.
  - intros Hfault.
    assert (∀ fs' : gmap string string,
              fs' !! USER_STORE_PATH = fs !! USER_STORE_PATH →
              _load_user_store_sync json_loads (file_at fs' USER_STORE_PATH)
              = _load_user_store_sync json_loads (file_at fs USER_STORE_PATH)) as Hsame.
    { intros fs' Heq. unfold file_at. by rewrite Heq. }
    destruct (write_fault faults) as [after |].
    + exists OSError. eexists. split; [reflexivity |].
      assert (set_file USER_STORE_TMP after fs !! USER_STORE_PATH = fs !! USER_STORE_PATH)
        as Heq.
      { destruct after; simpl; [by rewrite lookup_insert_ne | by rewrite lookup_delete_ne]. }
      split; [done | by apply Hsame].
    + destruct Hfault as [? | ->]; [done |].
      exists OSError. eexists. split; [reflexivity |].
      assert (<[USER_STORE_TMP := json_dumps store]> fs !! USER_STORE_PATH
              = fs !! USER_STORE_PATH) as Heq by by rewrite lookup_insert_ne.
      split; [done | by apply Hsame].
Qed.

Lemma save_is_atomic_witness :
  ∃ fs', _save_user_store_sync (λ _, "{}")
           {| write_fault := None; replace_fault := false |} ∅ ∅ = (Ok tt, fs') ∧
         _load_user_store_sync (λ _, Ok (JObj ∅)) (file_at fs' USER_STORE_PATH) = Ok ∅ ∧
         fs' !! USER_STORE_TMP = None ∧
         ∀ path, path ≠ USER_STORE_PATH → path ≠ USER_STORE_TMP →
                 fs' !! path = (∅ : gmap string string) !! path.
Proof.
  apply (proj1 (save_is_atomic (λ _, "{}") (λ _, Ok (JObj ∅))
                  {| write_fault := None; replace_fault := false |} ∅ ∅));
    try reflexivity.
  discriminate.
Defined.

(** *** Ad cadence *)

Lemma bump_run (u : Z) (s : gmap string json) (c : Z) :
  int_or 0 (rec_get (user_record s u) "success_count") = Ok c →
  _bump_success_and_should_show_ad u s =
    (Ok ((c + 1) `mod` 5 =? 0),
     <[str u := JObj (<["success_count" := JInt (c + 1)]> (user_record s u))]> s).
Proof.
  intros Hc. unfold _bump_success_and_should_show_ad, user_record in *.
  simpl. ledger_unfold. by rewrite Hc.
Qed.

Lemma bump_all_cadence (u : Z) (n : nat) :
  ∀ (s : gmap string json) (c : Z),
    int_or 0 (rec_get (user_record s u) "success_count") = Ok c →
    (bump_all u n s).1
      = (λ i : nat, Ok ((c + Z.of_nat i) `mod` 5 =? 0)) <$> seq 1 n ∧
    int_or 0 (rec_get (user_record (bump_all u n s).2 u) "success_count")
      = Ok (c + Z.of_nat n) ∧
    ∀ k, k ≠ str u → (bump_all u n s).2 !! k = s !! k.
Proof.
  induction n as [| n IH]; intros s c Hc.
  - simpl. rewrite Z.add_0_r. done.
  - simpl. rewrite (bump_run u s c Hc).
    set (s1 := <[str u := _]> s).
    assert (int_or 0 (rec_get (user_record s1 u) "success_count") = Ok (c + 1)) as H1.
    { unfold s1. by rewrite user_record_insert_eq, rec_get_insert_eq. }
    destruct (IH s1 (c + 1) H1) as (Hans & Hcount & Hframe).
    destruct (bump_all u n s1) as [answers s2]. simpl in *.
    split; [| split].
    + f_equal. rewrite Hans. rewrite <- (fmap_S_seq 1 n), <- list_fmap_compose.
      apply list_fmap_ext. intros i x _. simpl. do 3 f_equal. lia.
    + rewrite Hcount. f_equal. lia.
    + intros k Hk. rewrite Hframe by done. unfold s1. by rewrite lookup_insert_ne.
Qed.

(** X2.  From a readable success count [c], the [i]-th of [n] consecutive
    calls of [_bump_success_and_should_show_ad] answers [True] exactly when
    [c + i] is a multiple of 5; afterwards the count is [c + n], and no
    other user's record has changed. *)
Theorem ad_shown_every_fifth_success (u : Z) (n : nat) (s : gmap string json) (c : Z)
    (Hc : int_or 0 (rec_get (user_record s u) "success_count") = Ok c) :
  (∀ i : nat, (i < n)%nat →
     ∃ shown : bool,
       (bump_all u n s).1 !! i = Some (Ok shown) ∧
       (shown = true ↔ (5 | c + Z.of_nat (S i)))) ∧
  int_or 0 (rec_get (user_record (bump_all u n s).2 u) "success_count")
    = Ok (c + Z.of_nat n) ∧
  ∀ k, k ≠ str u → (bump_all u n s).2 !! k = s !! k.
Proof.
  destruct (bump_all_cadence u n s c Hc) as (Hans & Hcount & Hframe).
  split; [| done].
  intros i Hi. eexists. split.
  - rewrite Hans, list_lookup_fmap, lookup_seq_lt by done. reflexivity.
  - replace (1 + i)%nat with (S i) by lia.
    rewrite Z.eqb_eq. by apply Z.mod_divide.
Qed.

Lemma ad_shown_every_fifth_success_witness :
  ∃ shown : bool,
    (bump_all 42 10 ∅).1 !! 4%nat = Some (Ok shown) ∧
    (shown = true ↔ (5 | 0 + Z.of_nat 5)).
Proof.
  destruct (ad_shown_every_fifth_success 42 10 ∅ 0) as [Hshown _]; [reflexivity |].
  apply (Hshown 4%nat). lia.
Defined.

(** X3.  [_maybe_send_ad_after_success] sends nothing and leaves the store
    as it is when the message has no chat, the chat is not private or its
    id is not positive, and when the user's premium is active: successes of
    a premium user do not advance the count.  For any other user the count
    goes up by one and the ad is sent exactly when the new count is a
    multiple of 5. *)
Theorem no_ad_for_premium (message_chat : option chat) (now : Z) (s : gmap string json) :
  (message_chat = None → _maybe_send_ad_after_success message_chat now s = (Ok false, s)) ∧
  (∀ c, message_chat = Some c →
     chat_type c ≠ "private" ∨ chat_id c ≤ 0 →
     _maybe_send_ad_after_success message_chat now s = (Ok false, s)) ∧
  (∀ c, message_chat = Some c → chat_type c = "private" → 0 < chat_id c →
     (_is_premium_now (user_record s (chat_id c)) now = Ok true →
      _maybe_send_ad_after_success message_chat now s = (Ok false, s)) ∧
     (∀ count,
        _is_premium_now (user_record s (chat_id c)) now = Ok false →
        int_or 0 (rec_get (user_record s (chat_id c)) "success_count") = Ok count →
        _maybe_send_ad_after_success message_chat now s =
          (Ok ((count + 1) `mod` 5 =? 0),
           <[str (chat_id c) :=
               JObj (<["success_count" := JInt (count + 1)]>
                       (user_record s (chat_id c)))]> s))).
Proof.
  split; [by intros -> |]. split.
  - intros c -> Hbad. unfold _maybe_send_ad_after_success.
    destruct (String.eqb_spec (chat_type c) "private") as [Hp |]; [| done].
    destruct Hbad as [? | Hle]; [done |].
    by destruct (Z.leb_spec (chat_id c) 0); [| lia].
  - intros c -> Hp Hpos. unfold _maybe_send_ad_after_success.
    rewrite Hp. simpl. destruct (Z.leb_spec (chat_id c) 0); [lia |].
    unfold _get_user_record. destruct (Z.leb_spec (chat_id c) 0); [lia |].
    split.
    + intros Hprem. unfold user_record in Hprem. ledger_unfold. by rewrite Hprem.
    + intros count Hprem Hcount.
      pose proof (bump_run (chat_id c) s count Hcount) as Hbump.
      unfold user_record in Hprem. ledger_unfold. rewrite Hprem, Hbump.
      by destruct (_ =? 0).
Qed.

Lemma no_ad_for_premium_witness :
  _maybe_send_ad_after_success (Some {| chat_type := "private"; chat_id := 42 |}) 1000
    (<["42" := JObj (<["premium_until" := JInt 5000]> ∅)]> ∅)
  = (Ok false, <["42" := JObj (<["premium_until" := JInt 5000]> ∅)]> ∅).
Proof.
  apply (proj1 (proj2 (proj2 (no_ad_for_premium
           (Some {| chat_type := "private"; chat_id := 42 |}) 1000
           (<["42" := JObj (<["premium_until" := JInt 5000]> ∅)]> ∅)))
           {| chat_type := "private"; chat_id := 42 |} eq_refl eq_refl eq_refl));
    reflexivity.
Defined.

(** *** The cache of sent files *)

Lemma od_pop_absent (k : string) (d : list (string * string)) :
  k ∉ d.*1 → od_pop k d = d.
Proof.
  unfold od_pop. induction d as [| [k' v] d IH]; intros Hk; [done |].
  rewrite fmap_cons, not_elem_of_cons in Hk. destruct Hk as [Hne Hk]. simpl in Hne.
  rewrite filter_cons_True by (simpl; congruence). by rewrite IH.
Qed.

Lemma od_pop_gone (k : string) (d : list (string * string)) : k ∉ (od_pop k d).*1.
Proof.
  intros Hin. apply list_elem_of_fmap in Hin as ([k' v] & -> & Hin).
  apply list_elem_of_filter in Hin as [Hne _]. by apply Hne.
Qed.

Lemma od_pop_keys (k k' : string) (d : list (string * string)) :
  k' ∈ (od_pop k d).*1 ↔ k' ≠ k ∧ k' ∈ d.*1.
Proof.
  unfold od_pop. rewrite !list_elem_of_fmap. split.
  - intros ([k0 v] & -> & Hin). apply list_elem_of_filter in Hin as [Hne Hin].
    split; [done |]. by exists (k0, v).
  - intros (Hne & [k0 v] & -> & Hin). exists (k0, v). split; [done |].
    by apply list_elem_of_filter.
Qed.

Lemma od_pop_NoDup (k : string) (d : list (string * string)) :
  NoDup d.*1 → NoDup (od_pop k d).*1.
Proof.
  unfold od_pop. induction d as [| [k' v] d IH]; intros Hnd; [constructor |].
  rewrite fmap_cons, NoDup_cons in Hnd. destruct Hnd as [Hk' Hnd].
  destruct (decide (k' = k)) as [-> | Hne].
  - rewrite filter_cons_False by (simpl; intros H; by apply H). by apply IH.
  - rewrite filter_cons_True by done. rewrite fmap_cons. apply NoDup_cons.
    split; [| by apply IH].
    intros Hin. apply (od_pop_keys k k' d) in Hin as [_ Hin]. by apply Hk'.
Qed.

Lemma od_set_absent (k v : string) (d : list (string * string)) :
  k ∉ d.*1 → od_set k v d = d ++ [(k, v)].
Proof.
  induction d as [| [k' v'] d IH]; intros Hk; [done |].
  rewrite fmap_cons, not_elem_of_cons in Hk. destruct Hk as [Hne Hk]. simpl in *.
  destruct (String.eqb_spec k' k); [congruence |]. by rewrite IH.
Qed.

Lemma od_get_absent (k : string) (d : list (string * string)) :
  k ∉ d.*1 → od_get k d = None.
Proof.
  induction d as [| [k' v'] d IH]; intros Hk; [done |].
  rewrite fmap_cons, not_elem_of_cons in Hk. destruct Hk as [Hne Hk]. simpl in *.
  destruct (String.eqb_spec k' k); [congruence |]. by apply IH.
Qed.

Lemma od_get_app (k : string) (d1 d2 : list (string * string)) :
  od_get k (d1 ++ d2) = match od_get k d1 with
                        | Some v => Some v
                        | None => od_get k d2
                        end.
Proof.
  induction d1 as [| [k' v'] d1 IH]; [done |]. simpl.
  by destruct (String.eqb k' k).
Qed.

Lemma od_get_pop_ne (k k0 : string) (d : list (string * string)) :
  k ≠ k0 → od_get k (od_pop k0 d) = od_get k d.
Proof.
  intros Hne. unfold od_pop. induction d as [| [k' v'] d IH]; [done |].
  destruct (decide (k' = k0)) as [-> | Hk'].
  - rewrite filter_cons_False by (simpl; intros H; by apply H). simpl.
    destruct (String.eqb_spec k0 k); [congruence | done].
  - rewrite filter_cons_True by done. simpl. by rewrite IH.
Qed.

Lemma cache_closed_form (video_id file_id : string) (cache : list (string * string)) :
  video_id ≠ "" → file_id ≠ "" →
  _cache_tiktok_file_id video_id file_id cache =
    if (TIKTOK_FILE_ID_CACHE_MAX <? length (od_pop video_id cache ++ [(video_id, file_id)]))%nat
    then match od_pop video_id cache ++ [(video_id, file_id)] with
         | (oldest, _) :: _ =>
             od_pop oldest (od_pop video_id cache ++ [(video_id, file_id)])
         | [] => []
         end
    else od_pop video_id cache ++ [(video_id, file_id)].
Proof.
  intros Hv Hf. unfold _cache_tiktok_file_id.
  destruct (String.eqb_spec video_id ""); [done |].
  destruct (String.eqb_spec file_id ""); [done |]. simpl.
  assert ((if od_mem video_id cache then od_pop video_id cache else cache)
          = od_pop video_id cache) as ->.
  { unfold od_mem. case_bool_decide; [done |]. by rewrite od_pop_absent. }
  rewrite od_set_absent by apply od_pop_gone.
  destruct (_ <? _)%nat; [| done].
  by destruct (od_pop video_id cache ++ [(video_id, file_id)]) as [| [o w] r].
Qed.

Lemma cache_step_ok (video_id file_id : string) (cache : list (string * string)) :
  cache_ok cache → cache_ok (_cache_tiktok_file_id video_id file_id cache).
Proof.
  intros (Hnd & Hlen & Hne).
  destruct (decide (video_id = "")) as [-> | Hv]; [done |].
  destruct (decide (file_id = "")) as [-> | Hf].
  { unfold _cache_tiktok_file_id. by rewrite orb_true_r. }
  rewrite cache_closed_form by done.
  set (c1 := od_pop video_id cache ++ [(video_id, file_id)]).
  assert (NoDup c1.*1) as Hnd1.
  { unfold c1. rewrite fmap_app. apply NoDup_app. split; [by apply od_pop_NoDup |].
    split; [| apply NoDup_singleton].
    intros k Hk Hin. apply list_elem_of_singleton in Hin. simpl in Hin. subst k.
    by apply od_pop_gone in Hk. }
  assert (length c1 ≤ S TIKTOK_FILE_ID_CACHE_MAX)%nat as Hlen1.
  { unfold c1, od_pop. rewrite length_app. simpl.
    pose proof (length_filter (λ e : string * string, e.1 ≠ video_id) cache). lia. }
  assert (Forall (λ e : string * string, e.1 ≠ "" ∧ e.2 ≠ "") c1) as Hne1.
  { unfold c1. apply Forall_app. split.
    - apply Forall_forall. intros e He. apply list_elem_of_filter in He as [_ He].
      by apply (proj1 (Forall_forall _ _) Hne).
    - by repeat constructor. }
  destruct (Nat.ltb_spec TIKTOK_FILE_ID_CACHE_MAX (length c1)); [| done].
  destruct c1 as [| [o w] r] eqn:Ec1; [simpl in *; lia |].
  split; [by apply od_pop_NoDup |]. split.
  - unfold od_pop. rewrite filter_cons_False by (simpl; intros Hx; by apply Hx).
    pose proof (length_filter (λ e : string * string, e.1 ≠ o) r). simpl in Hlen1. lia.
  - apply Forall_forall. intros e He. apply list_elem_of_filter in He as [_ He].
    by apply (proj1 (Forall_forall _ _) Hne1).
Qed.

(** X4.  [_cache_tiktok_file_id] keeps the cache a dictionary of at most
    200 entries with no key twice and no empty key or value: one call
    preserves this, so it holds after any sequence of calls on the empty
    cache. *)
Theorem cache_stays_bounded :
  (∀ video_id file_id cache,
     cache_ok cache → cache_ok (_cache_tiktok_file_id video_id file_id cache)) ∧
  (∀ calls, cache_ok (cache_after calls)) ∧
  (∀ calls k v, od_get k (cache_after calls) = Some v → k ≠ "" ∧ v ≠ "").
Proof.
  assert (∀ calls cache, cache_ok cache →
            cache_ok (foldl (λ c call, _cache_tiktok_file_id call.1 call.2 c) cache calls))
    as Hfold.
  { induction calls as [| call calls IH]; intros cache Hok; [done |].
    simpl. apply IH. by apply cache_step_ok. }
  assert (cache_ok []) as Hnil.
  { split; [constructor |]. split; [simpl; lia | constructor]. }
  split; [apply cache_step_ok |]. split; [intros calls; by apply Hfold |].
  intros calls k v Hget.
  destruct (Hfold calls [] Hnil) as (_ & _ & Hne). fold (cache_after calls) in Hne.
  revert Hget Hne. generalize (cache_after calls). intros d.
  induction d as [| [k' v'] d IH]; simpl; [done |].
  intros Hget Hne. apply Forall_cons in Hne as [Hhead Hne].
  destruct (String.eqb_spec k' k) as [-> |]; [| by apply IH].
  injection Hget as <-. exact Hhead.
Qed.

Lemma cache_stays_bounded_witness :
  cache_ok (_cache_tiktok_file_id "7301" "file-a" [("7300", "file-b")]).
Proof.
  apply (proj1 cache_stays_bounded).
  split; [| split].
  - apply NoDup_singleton.
  - unfold TIKTOK_FILE_ID_CACHE_MAX. simpl. lia.
  - repeat constructor; discriminate.
Defined.

(** X5.  After caching a file for a video, both ids not empty, looking the
    video up gives that file and its entry is the newest of the cache.
    Every other video keeps its file when the video was cached before or
    the cache held fewer than 200 entries; when a new video comes to a full
    cache, the oldest entry alone is dropped. *)
Theorem cache_keeps_newest (video_id file_id : string) (cache : list (string * string))
    (Hok : cache_ok cache) (Hv : video_id ≠ "") (Hf : file_id ≠ "") :
  od_get video_id (_cache_tiktok_file_id video_id file_id cache) = Some file_id ∧
  last (_cache_tiktok_file_id video_id file_id cache) = Some (video_id, file_id) ∧
  (video_id ∈ cache.*1 ∨ (length cache < TIKTOK_FILE_ID_CACHE_MAX)%nat →
   ∀ k, k ≠ video_id →
     od_get k (_cache_tiktok_file_id video_id file_id cache) = od_get k cache) ∧
  (video_id ∉ cache.*1 → length cache = TIKTOK_FILE_ID_CACHE_MAX →
   ∃ oldest file rest,
     cache = (oldest, file) :: rest ∧
     _cache_tiktok_file_id video_id file_id cache = rest ++ [(video_id, file_id)] ∧
     od_get oldest (_cache_tiktok_file_id video_id file_id cache) = None ∧
     ∀ k, k ≠ video_id → k ≠ oldest →
       od_get k (_cache_tiktok_file_id video_id file_id cache) = od_get k cache).
Proof.
  destruct Hok as (Hnd & Hlen & Hne).
  rewrite cache_closed_form by done.
  assert (od_get video_id (od_pop video_id cache ++ [(video_id, file_id)]) = Some file_id)
    as Hget.
  { rewrite od_get_app, od_get_absent by apply od_pop_gone. simpl.
    by rewrite String.eqb_refl. }
  assert (∀ k, k ≠ video_id →
            od_get k (od_pop video_id cache ++ [(video_id, file_id)]) = od_get k cache)
    as Hothers.
  { intros k Hk. rewrite od_get_app, od_get_pop_ne by done.
    destruct (od_get k cache); [done |]. simpl.
    destruct (String.eqb_spec video_id k); [congruence | done]. }
  destruct (decide (video_id ∈ cache.*1)) as [Hin | Hnin].
  - assert (length (od_pop video_id cache) < length cache)%nat as Hshort.
    { apply list_elem_of_fmap in Hin as ([k0 v0] & -> & Hin).
      apply (length_filter_lt _ _ (k0, v0)); [done |]. intros Hx. by apply Hx. }
    destruct (Nat.ltb_spec TIKTOK_FILE_ID_CACHE_MAX
                (length (od_pop video_id cache ++ [(video_id, file_id)]))) as [Hbig |].
    { rewrite length_app in Hbig. simpl in Hbig. lia. }
    split; [done |]. split; [apply last_snoc |]. split; [by intros _ |].
    intros Hx. by destruct Hx.
  - rewrite (od_pop_absent video_id cache Hnin) in *.
    destruct (Nat.ltb_spec TIKTOK_FILE_ID_CACHE_MAX
                (length (cache ++ [(video_id, file_id)]))) as [Hbig | Hsmall].
    + rewrite length_app in Hbig. simpl in Hbig.
      assert (length cache = TIKTOK_FILE_ID_CACHE_MAX) as Hfull by lia.
      destruct cache as [| [o w] rest]; [done |].
      rewrite fmap_cons, NoDup_cons in Hnd. destruct Hnd as [Ho Hnd]. simpl in Ho.
      rewrite fmap_cons, not_elem_of_cons in Hnin. destruct Hnin as [Hvo Hnin].
      simpl in Hvo.
      assert (od_pop o (((o, w) :: rest) ++ [(video_id, file_id)])
              = rest ++ [(video_id, file_id)]) as Hevict.
      { unfold od_pop. simpl.
        rewrite filter_cons_False by (simpl; intros Hx; by apply Hx).
        rewrite filter_app. fold (od_pop o rest). rewrite od_pop_absent by done.
        rewrite filter_cons_True by (simpl; congruence). done. }
      simpl. simpl in Hevict. rewrite Hevict.
      split.
      { rewrite od_get_app, od_get_absent by done. simpl. by rewrite String.eqb_refl. }
      split; [apply last_snoc |]. split.
      { intros [Hx | Hx]; [| simpl in *; lia].
        apply elem_of_cons in Hx as [-> | Hx]; done. }
      intros _ _. exists o, w, rest. split; [done |]. split; [done |]. split.
      * rewrite od_get_app, od_get_absent by done. simpl.
        destruct (String.eqb_spec video_id o); [congruence | done].
      * intros k Hk Hko. rewrite od_get_app. simpl.
        destruct (String.eqb_spec o k); [congruence |].
        destruct (od_get k rest); [done |]. simpl.
        destruct (String.eqb_spec video_id k); [congruence | done].
    + split; [done |]. split; [apply last_snoc |]. split; [by intros _ |].
      intros _ Hfull. rewrite length_app in Hsmall. simpl in Hsmall. lia.
Qed.

Lemma cache_keeps_newest_witness :
  od_get "7301" (_cache_tiktok_file_id "7301" "file-a" [("7300", "file-b")])
    = Some "file-a".
Proof.
  apply (cache_keeps_newest "7301" "file-a" [("7300", "file-b")]);
    [| discriminate | discriminate].
  split; [| split].
  - apply NoDup_singleton.
  - unfold TIKTOK_FILE_ID_CACHE_MAX. simpl. lia.
  - repeat constructor; discriminate.
Defined.

(** *** Invoices and payments *)

Lemma split_on_cons (sep : ascii) (s : string) : ∃ h t, split_on sep s = h :: t.
Proof.
  induction s as [| c s (h & t & IH)]; simpl; [by eexists _, _ |].
  destruct (Ascii.eqb c sep); [by eexists _, _ |]. rewrite IH. by eexists _, _.
Qed.

Lemma payment_of_built_payload (py_int_of_str : string → option Z)
    (sender : user) (product embedded : string) (now : Z) (s : gmap string json) :
  product ∈ ["premium_30d"; "credits_10"; "credits_50"] →
  successful_payment_handler py_int_of_str
    (payment_update sender ("cx|" +:+ product +:+ "|" +:+ embedded)) now s
  = deliver_product product (id sender) now s.
Proof.
  intros Hprod.
  rewrite (handler_with_payload py_int_of_str
             (payment_update sender ("cx|" +:+ product +:+ "|" +:+ embedded)) now s
             ("cx|" +:+ product +:+ "|" +:+ embedded) eq_refl).
  destruct (split_on_cons "|" embedded) as (h & t & Hsplit).
  unfold deliver_product.
  repeat (apply elem_of_cons in Hprod as [-> | Hprod]);
    try (by apply elem_of_nil in Hprod).
  all: simpl; change ("" +:+ embedded) with embedded; by rewrite Hsplit.
Qed.

(** X6.  The invoice [premium_callback] sends for a purchase button is made
    out in the chat of the press, in the currency XTR, at the price of the
    product, with a payload that [precheckout_callback] approves and that,
    when the payment comes back from the same user,
    [successful_payment_handler] turns into that very product for that
    user. *)
Theorem invoice_comes_back_as_product (py_int_of_str : string → option Z)
    (sender : user) (c : chat) (lang : string) (bot_link : option string)
    (now : Z) (s : gmap string json) (data product : string) (price : Z)
    (Hbutton : (data, product, price) ∈
                 [ ("premium_buy_month", "premium_30d", PREMIUM_30D_STARS);
                   ("premium_buy_credits10", "credits_10", CREDITS_10_STARS);
                   ("premium_buy_credits50", "credits_50", CREDITS_50_STARS) ]) :
  ∃ inv,
    premium_callback (button_press sender c data) lang bot_link = SendInvoice inv ∧
    inv_chat_id inv = chat_id c ∧
    inv_currency inv = "XTR" ∧
    inv_amount inv = price ∧
    inv_payload inv = "cx|" +:+ product +:+ "|" +:+ str (id sender) ∧
    precheckout_callback (Some {| pcq_invoice_payload := Some (inv_payload inv) |})
      = Some (true, None) ∧
    successful_payment_handler py_int_of_str
      (payment_update sender (inv_payload inv)) now s
    = deliver_product product (id sender) now s.
Proof.
  repeat (apply elem_of_cons in Hbutton as [[= -> -> ->] | Hbutton]);
    [| | | by apply elem_of_nil in Hbutton].
  all: eexists; split; [reflexivity |]; simpl.
  all: repeat split.
  all: match goal with
       | |- _ = deliver_product ?p _ _ _ =>
           apply (payment_of_built_payload py_int_of_str sender p (str (id sender)))
       end; set_solver.
Qed.

Lemma invoice_comes_back_as_product_witness :
  ∃ inv,
    premium_callback
      (button_press {| id := 7 |} {| chat_type := "private"; chat_id := 7 |}
         "premium_buy_credits10") "en" None = SendInvoice inv ∧
    inv_chat_id inv = 7 ∧
    inv_currency inv = "XTR" ∧
    inv_amount inv = CREDITS_10_STARS ∧
    inv_payload inv = "cx|" +:+ "credits_10" +:+ "|" +:+ str 7 ∧
    precheckout_callback (Some {| pcq_invoice_payload := Some (inv_payload inv) |})
      = Some (true, None) ∧
    successful_payment_handler (λ _, None)
      (payment_update {| id := 7 |} (inv_payload inv)) 1000 ∅
    = deliver_product "credits_10" 7 1000 ∅.
Proof.
  apply (invoice_comes_back_as_product (λ _, None) {| id := 7 |}
           {| chat_type := "private"; chat_id := 7 |} "en" None 1000 ∅
           "premium_buy_credits10" "credits_10" CREDITS_10_STARS).
  set_solver.
Defined.

Lemma is_premium_after_grant (rec : gmap string json) (expiry t : Z) :
  _is_premium_now (<["premium_until" := JInt expiry]> rec) t = Ok (t <? expiry).
Proof. unfold _is_premium_now. by rewrite rec_get_insert_eq. Qed.

(** X7.  A successful payment for [premium_30d] made at clock [now] stores
    the expiry [max(now, current expiry) + 30 days] for the payer, and from
    then on [_plan_effect_entitlement] answers [premium] at every clock
    reading before that expiry, whatever the day and the free uses, and
    premium is no longer active from the expiry on. *)
Theorem paid_premium_lasts_thirty_days (py_int_of_str : string → option Z)
    (sender : user) (embedded : string) (now cur : Z) (s : gmap string json)
    (Hcur : int_or 0 (premium_until_of s (id sender)) = Ok cur) :
  ∃ s',
    successful_payment_handler py_int_of_str
      (payment_update sender ("cx|premium_30d|" +:+ embedded)) now s = (Ok tt, s') ∧
    premium_until_of s' (id sender) = JInt (Z.max now cur + 2592000) ∧
    (∀ t today, t < Z.max now cur + 2592000 →
       _plan_effect_entitlement (id sender) t today s' = (Ok (Some "premium"), s')) ∧
    (∀ t, Z.max now cur + 2592000 ≤ t →
       _is_premium_now (user_record s' (id sender)) t = Ok false).
Proof.
  eexists. split.
  { rewrite (payment_of_built_payload py_int_of_str sender "premium_30d" embedded)
      by set_solver.
    unfold deliver_product. simpl.
    by apply (grant_premium_run (id sender) PREMIUM_DURATION_SECONDS now cur s). }
  change PREMIUM_DURATION_SECONDS with 2592000.
  split; [| split].
  - unfold premium_until_of. by rewrite user_record_insert_eq, rec_get_insert_eq.
  - intros t today Ht. apply plan_premium.
    rewrite user_record_insert_eq, is_premium_after_grant.
    by destruct (Z.ltb_spec t (Z.max now cur + 2592000)); [| lia].
  - intros t Ht. rewrite user_record_insert_eq, is_premium_after_grant.
    by destruct (Z.ltb_spec t (Z.max now cur + 2592000)); [lia |].
Qed.

Lemma paid_premium_lasts_thirty_days_witness :
  ∃ s',
    successful_payment_handler (λ _, None)
      (payment_update {| id := 7 |} ("cx|premium_30d|" +:+ "7")) 1000 ∅ = (Ok tt, s') ∧
    premium_until_of s' 7 = JInt (Z.max 1000 0 + 2592000) ∧
    (∀ t today, t < Z.max 1000 0 + 2592000 →
       _plan_effect_entitlement 7 t today s' = (Ok (Some "premium"), s')) ∧
    (∀ t, Z.max 1000 0 + 2592000 ≤ t →
       _is_premium_now (user_record s' 7) t = Ok false).
Proof.
  apply (paid_premium_lasts_thirty_days (λ _, None) {| id := 7 |} "7" 1000 0 ∅).
  reflexivity.
Defined.

Lemma add_credits_run (u amount cur : Z) (s : gmap string json) :
  0 < amount →
  int_or 0 (rec_get (user_record s u) "credits") = Ok cur →
  _add_credits u amount s =
    (Ok tt,
     <[str u := JObj (<["credits" := JInt (Z.max 0 (cur + amount))]> (user_record s u))]> s).
Proof.
  intros Hpos Hcur. unfold _add_credits, user_record in *.
  destruct (Z.leb_spec amount 0); [lia |]. ledger_unfold. by rewrite Hcur.
Qed.

Lemma stored_credits_readable (rec : gmap string json) :
  rec_credits_ok rec →
  ∃ c, 0 ≤ c ∧ int_or 0 (rec_get rec "credits") = Ok c ∧ _get_credits rec = Ok c.
Proof.
  unfold rec_credits_ok, _get_credits, int_or, rec_get.
  destruct (rec !! "credits") as [[| | n | | | |] |]; simpl; try done.
  - intros Hn. exists n. repeat split; try done.
    unfold mret, result_ret. f_equal. destruct (Z.ltb_spec 0 n); lia.
  - intros _. by exists 0.
Qed.

Lemma finalize_credit_ok (u : Z) (today : string) (s : gmap string json) (used c : Z) :
  free_used_on (user_record s u) today = Ok used →
  _get_credits (user_record s u) = Ok c →
  _finalize_effect_entitlement u (Some "credit") today s =
    (Ok tt,
     <[str u := JObj (<["credits" := JInt (Z.max 0 (c - 1))]> (user_record s u))]> s).
Proof.
  intros Hused Hc. rewrite <- free_used_on_code in Hused.
  unfold _finalize_effect_entitlement, user_record in *. simpl. ledger_unfold.
  destruct (py_ne_str _ today); rewrite Hused; simpl; by rewrite Hc.
Qed.

Lemma free_used_on_credits (rec : gmap string json) (today : string) (v : json) :
  free_used_on (<["credits" := v]> rec) today = free_used_on rec today.
Proof. unfold free_used_on. by rewrite !rec_get_insert_ne. Qed.

Lemma spend_credits_run (u : Z) (today : string) (n : nat) :
  ∀ (s : gmap string json) (used c : Z),
    free_used_on (user_record s u) today = Ok used →
    _get_credits (user_record s u) = Ok c →
    _get_credits (user_record (spend_credits u today n s) u)
      = Ok (Z.max 0 (c - Z.of_nat n)) ∧
    free_used_on (user_record (spend_credits u today n s) u) today = Ok used ∧
    (∀ now, _is_premium_now (user_record (spend_credits u today n s) u) now
            = _is_premium_now (user_record s u) now) ∧
    (∀ k, k ≠ str u → spend_credits u today n s !! k = s !! k).
Proof.
  induction n as [| n IH]; intros s used c Hused Hc.
  - simpl. pose proof (get_credits_nonneg _ _ Hc).
    rewrite Z.sub_0_r, Z.max_r by done. done.
  - unfold spend_credits in *. simpl.
    destruct (IH s used c Hused Hc) as (Hc' & Hused' & Hprem & Hframe).
    set (s1 := Nat.iter n _ s) in *.
    rewrite (finalize_credit_ok u today s1 used _ Hused' Hc'). simpl.
    rewrite user_record_insert_eq. split; [| split; [| split]].
    + rewrite get_credits_set by lia. f_equal. lia.
    + by rewrite free_used_on_credits.
    + intros now. by rewrite is_premium_other.
    + intros k Hk. rewrite lookup_insert_ne by done. by apply Hframe.
Qed.

(** X8.  Credits pay for exactly as many effects as there are.  A credit
    pack bought by a user whose stored credits are in order raises the
    balance by 10 or 50.  With the free quota of the day used up and no
    premium, after [n] finalized credit uses from a balance [c] the balance
    is [max(0, c - n)] and [_plan_effect_entitlement] answers [credit] as
    long as [n < c] and [None] from then on; nothing else of the record and
    no other user changes. *)
Theorem credits_pay_one_use_each (u : Z) (today : string) (s : gmap string json)
    (used c : Z)
    (Hused : free_used_on (user_record s u) today = Ok used)
    (Hc : _get_credits (user_record s u) = Ok c) :
  (rec_credits_ok (user_record s u) →
   ∀ py_int_of_str embedded now product amount,
     (product, amount) ∈ [("credits_10", 10); ("credits_50", 50)] →
     ∃ s',
       successful_payment_handler py_int_of_str
         (payment_update {| id := u |} ("cx|" +:+ product +:+ "|" +:+ embedded)) now s
       = (Ok tt, s') ∧
       _get_credits (user_record s' u) = Ok (c + amount)) ∧
  (∀ n : nat,
     _get_credits (user_record (spend_credits u today n s) u)
       = Ok (Z.max 0 (c - Z.of_nat n)) ∧
     (∀ k, k ≠ str u → spend_credits u today n s !! k = s !! k) ∧
     (∀ now, 2 ≤ used → _is_premium_now (user_record s u) now = Ok false →
        _plan_effect_entitlement u now today (spend_credits u today n s)
        = (Ok (if Z.of_nat n <? c then Some "credit" else None),
           spend_credits u today n s))).
Proof.
  split.
  - intros Hok py_int_of_str embedded now product amount Hpack.
    destruct (stored_credits_readable _ Hok) as (c0 & Hc0 & Hstored & Hbal).
    assert (c0 = c) as -> by congruence.
    assert (0 < amount ∧ product ∈ ["premium_30d"; "credits_10"; "credits_50"]
            ∧ deliver_product product u now s = _add_credits u amount s)
      as (Hpos & Hprod & Hdel).
    { repeat (apply elem_of_cons in Hpack as [[= -> ->] | Hpack]);
        [| | by apply elem_of_nil in Hpack]; (split; [lia |]); (split; [set_solver |]);
        reflexivity. }
    eexists. split.
    { rewrite (payment_of_built_payload py_int_of_str {| id := u |} product embedded)
        by done.
      simpl. rewrite Hdel. by apply (add_credits_run u amount c s). }
    rewrite user_record_insert_eq, Z.max_r by lia. apply get_credits_set. lia.
  - intros n.
    destruct (spend_credits_run u today n s used c Hused Hc)
      as (Hc' & Hused' & Hprem & Hframe).
    split; [done |]. split; [done |].
    intros now Hquota Hfree.
    rewrite (plan_paid u now today _ used (Z.max 0 (c - Z.of_nat n)));
      try done; [| by rewrite Hprem].
    do 2 f_equal.
    destruct (Z.ltb_spec 0 (Z.max 0 (c - Z.of_nat n)));
      destruct (Z.ltb_spec (Z.of_nat n) c); try done; lia.
Qed.

Lemma credits_pay_one_use_each_witness :
  _get_credits (user_record (spend_credits 42 "2024-05-01" 2 store_quota_spent) 42)
  = Ok (Z.max 0 (3 - Z.of_nat 2)).
Proof.
  destruct (credits_pay_one_use_each 42 "2024-05-01" store_quota_spent 2 3)
    as [_ Hspend]; [reflexivity | reflexivity |].
  apply (Hspend 2%nat).
Defined.

(** *** Referral links *)

Lemma prefix_of_app (s t : string) : String.prefix s (s +:+ t) = true.
Proof.
  induction s as [| a s IH]; [by destruct t |].
  simpl. by destruct (ascii_dec a a).
Qed.

Lemma start_with_ref (py_int_of_str : string → option Z) (upd : update)
    (sender : user) (ref : Z) (more : list string) (s : gmap string json) :
  update_msg upd ≠ None → effective_user upd = Some sender →
  py_int_of_str (str ref) = Some ref →
  start py_int_of_str upd (Some (("ref_" +:+ str ref) :: more)) s
  = if 0 <? ref then _apply_referral (id sender) ref s else (Ok false, s).
Proof.
  intros Hmsg Hsender Hint. unfold start.
  destruct (update_msg upd); [| done].
  rewrite prefix_of_app.
  change (str_drop 4 ("ref_" +:+ str ref)) with (str ref).
  rewrite Hint, Hsender. by destruct (0 <? ref).
Qed.

Lemma start_never_after_referral (py_int_of_str : string → option Z) (upd : update)
    (sender : user) (args : option (list string)) (s : gmap string json) :
  effective_user upd = Some sender →
  truthy (rec_get (user_record s (id sender)) "referred_by") = true →
  start py_int_of_str upd args s = (Ok false, s).
Proof.
  intros Hsender Hset. unfold start.
  destruct (update_msg upd); [| done].
  destruct args as [[| arg0 more] |]; try done.
  destruct (String.prefix "ref_" arg0); [| done].
  destruct (0 <? _); [| done]. rewrite Hsender.
  apply apply_referral_rejects. by do 3 right.
Qed.

(** X9.  The link [_ref_link_for_user] makes for a user ends in the start
    parameter [ref_<id>], and [start] called with that parameter applies
    the referral of that user to the sender: a user who follows their own
    link changes nothing, a new user is credited 2 and the referrer 5, and
    once the sender has a referrer no [start], with whatever arguments,
    changes the store again.  Without a message, without arguments or with
    a first argument that does not begin with [ref_] nothing changes
    either. *)
Theorem referral_link_round_trip (py_int_of_str : string → option Z)
    (upd : update) (sender : user) (ref : Z) (s : gmap string json)
    (Hmsg : update_msg upd ≠ None)
    (Hsender : effective_user upd = Some sender)
    (Hint : py_int_of_str (str ref) = Some ref) (Href : 0 < ref) :
  (∀ link, link ≠ "" →
     _ref_link_for_user (Some link) ref
       = Some (link +:+ "?start=" +:+ ("ref_" +:+ str ref))) ∧
  (∀ more, start py_int_of_str upd (Some (("ref_" +:+ str ref) :: more)) s
           = _apply_referral (id sender) ref s) ∧
  (id sender = ref →
   ∀ more, start py_int_of_str upd (Some (("ref_" +:+ str ref) :: more)) s
           = (Ok false, s)) ∧
  (∀ rc cr cn more,
     0 < id sender → id sender ≠ ref →
     truthy (rec_get (user_record s (id sender)) "referred_by") = false →
     int_or 0 (rec_get (user_record s ref) "ref_count") = Ok rc →
     _get_credits (user_record s ref) = Ok cr →
     _get_credits (user_record s (id sender)) = Ok cn →
     ∃ s', start py_int_of_str upd (Some (("ref_" +:+ str ref) :: more)) s
             = (Ok true, s') ∧
           _get_credits (user_record s' ref) = Ok (cr + 5) ∧
           _get_credits (user_record s' (id sender)) = Ok (cn + 2) ∧
           ∀ args, start py_int_of_str upd args s' = (Ok false, s')) ∧
  (∀ args,
     args = None ∨ args = Some [] ∨
     (∃ arg0 more, args = Some (arg0 :: more) ∧ String.prefix "ref_" arg0 = false) →
     start py_int_of_str upd args s = (Ok false, s)).
Proof.
  assert (∀ more, start py_int_of_str upd (Some (("ref_" +:+ str ref) :: more)) s
                  = _apply_referral (id sender) ref s) as Hstart.
  { intros more. rewrite (start_with_ref _ _ sender) by done.
    by destruct (Z.ltb_spec 0 ref); [| lia]. }
  split; [| split; [| split; [| split]]].
  - intros link Hlink. unfold _ref_link_for_user.
    destruct (String.eqb_spec link ""); [done |].
    by destruct (Z.leb_spec ref 0); [lia |].
  - exact Hstart.
  - intros Hself more. rewrite Hstart. apply apply_referral_rejects. tauto.
  - intros rc cr cn more Hpos Hne Hunset Hrc Hcr Hcn. rewrite Hstart.
    eexists. split; [by apply (apply_referral_run (id sender) ref s rc cr cn) |].
    pose proof (get_credits_nonneg _ _ Hcr). pose proof (get_credits_nonneg _ _ Hcn).
    split; [| split].
    + rewrite user_record_insert_ne, user_record_insert_eq by done.
      apply get_credits_set. lia.
    + rewrite user_record_insert_eq. apply get_credits_set. lia.
    + intros args. apply (start_never_after_referral _ _ sender); [done |].
      rewrite user_record_insert_eq, rec_get_insert_ne, rec_get_insert_eq by done.
      apply truthy_str.
  - intros args Hargs. unfold start. destruct (update_msg upd); [| done].
    destruct Hargs as [-> | [-> | (arg0 & more & -> & Hpre)]]; try done.
    by rewrite Hpre.
Qed.

Lemma referral_link_round_trip_witness :
  start (λ _, Some 43) (payment_update {| id := 42 |} "")
    (Some [("ref_" +:+ str 43)]) ∅
  = _apply_referral 42 43 ∅.
Proof.
  destruct (referral_link_round_trip (λ _, Some 43)
              (payment_update {| id := 42 |} "") {| id := 42 |} 43 ∅)
    as (_ & Hstart & _);
    [discriminate | reflexivity | reflexivity | reflexivity |].
  apply (Hstart []).
Defined.

(** *** Remaining time *)

Lemma eta_seconds_nonneg (x : pynum) (n : Z) :
  num_le_0 x = false → py_int x = Ok n → 0 ≤ n.
Proof.
  destruct x as [k | [q | |]]; simpl; try done.
  - intros Hk [= <-]. destruct (Z.leb_spec k 0); [done | lia].
  - intros Hq [= <-]. apply Z.quot_pos; [| done].
    destruct (Qle_bool q 0) eqn:E; [done |].
    destruct (Z.le_gt_cases 0 (Qnum q)) as [| Hneg]; [done |].
    assert (Qle_bool q 0 = true) as Hle; [| congruence].
    apply Qle_bool_iff. unfold Qle. simpl. lia.
Qed.

Lemma two_digits (k : Z) : 0 ≤ k < 60 → String.length (zero_pad 2 (str k)) = 2%nat.
Proof.
  intros Hk.
  assert (Forall (λ k, String.length (zero_pad 2 (str k)) = 2%nat) (seqZ 0 60)) as Hall.
  { apply (bool_decide_unpack _). vm_compute. exact I. }
  apply (proj1 (Forall_forall _ _) Hall). apply elem_of_seqZ. lia.
Qed.

(** X10.  [_format_eta] answers [?] for a value that is not a number and
    for a number that is not positive.  For a positive finite number of
    [n] whole seconds it answers [<n>s] below a minute, [<m>m<ss>s] below
    an hour and [<h>h<mm>m] from an hour on, where the two-digit fields are
    below 60 and always two characters.  A NaN and a positive infinity are
    not caught: the conversion to [int] raises. *)
Theorem format_eta_shape :
  (∀ v, as_number v = None → _format_eta v = Ok "?") ∧
  (∀ v x, as_number v = Some x → num_le_0 x = true → _format_eta v = Ok "?") ∧
  (∀ v x n, as_number v = Some x → num_le_0 x = false → py_int x = Ok n →
     0 ≤ n ∧
     (n < 60 → _format_eta v = Ok (str n +:+ "s")) ∧
     (60 ≤ n < 3600 →
      _format_eta v
        = Ok (str (n `div` 60) +:+ "m" +:+ zero_pad 2 (str (n `mod` 60)) +:+ "s")) ∧
     (3600 ≤ n →
      _format_eta v
        = Ok (str (n `div` 3600) +:+ "h"
                +:+ zero_pad 2 (str ((n `div` 60) `mod` 60)) +:+ "m"))) ∧
  (∀ k, 0 ≤ k < 60 → String.length (zero_pad 2 (str k)) = 2%nat) ∧
  _format_eta (JFloat NaN) = Raise ValueError ∧
  _format_eta (JFloat (Inf false)) = Raise OverflowError ∧
  _format_eta (JFloat (Inf true)) = Ok "?".
Proof.
  split; [| split; [| split; [| split; [apply two_digits | done]]]].
  - intros v Hv. unfold _format_eta. by rewrite Hv.
  - intros v x Hv Hle. unfold _format_eta. by rewrite Hv, Hle.
  - intros v x n Hv Hpos Hint.
    pose proof (eta_seconds_nonneg x n Hpos Hint) as Hn.
    split; [done |].
    unfold _format_eta. rewrite Hv, Hpos, Hint. simpl.
    split; [| split].
    + intros Hlt. rewrite (Z.div_small n 60), (Z.mod_small n 60) by lia.
      change (0 `div` 60) with 0. change (0 `mod` 60) with 0. done.
    + intros [Hlo Hhi].
      assert (1 ≤ n `div` 60) by (apply Z.div_le_lower_bound; lia).
      assert (n `div` 60 < 60) by (apply Z.div_lt_upper_bound; lia).
      rewrite (Z.div_small (n `div` 60) 60), (Z.mod_small (n `div` 60) 60) by lia.
      simpl. by destruct (Z.eqb_spec (n `div` 60) 0); [lia |].
    + intros Hlo.
      rewrite Z.div_div by lia. change (60 * 60) with 3600.
      assert (1 ≤ n `div` 3600) by (apply Z.div_le_lower_bound; lia).
      by destruct (Z.eqb_spec (n `div` 3600) 0); [lia |].
Qed.

Lemma format_eta_shape_witness :
  _format_eta (JFloat (Finite (7325 # 2)))
  = Ok (str (3662 `div` 3600) +:+ "h" +:+ zero_pad 2 (str ((3662 `div` 60) `mod` 60)) +:+ "m").
Proof.
  destruct format_eta_shape as (_ & _ & Hshape & _).
  apply (Hshape (JFloat (Finite (7325 # 2))) (NFloat (Finite (7325 # 2))) 3662);
    [reflexivity | reflexivity | reflexivity | lia].
Defined.

(** *** Charging for an effect *)

Lemma deliver_cases (io : effects_io) :
  deliver io = true ↔
  (video_try1 io = Sent ∨
   video_try1 io = SendTimedOut ∧
     (video_try2 io = Sent ∨ video_try2 io = SendTimedOut ∧ document_try io = Sent)) ∧
  done_reply io = true.
Proof.
  unfold deliver.
  destruct (video_try1 io), (video_try2 io), (document_try io), (done_reply io);
    simpl; intuition congruence.
Qed.

Lemma apply_eq_filter_completed (run_process : list string → result Z)
    (exe in_path out_path : string) (b c sat : Q) :
  completed (_apply_eq_filter run_process exe in_path out_path b c sat) = Some tt ↔
  run_process (apply_eq_cmd exe in_path out_path b c sat) = Ok 0.
Proof.
  unfold _apply_eq_filter, subprocess_run, mbind, result_bind, mret, result_ret.
  destruct (run_process _) as [rc |]; simpl; [| done].
  destruct (Z.eqb_spec rc 0) as [-> | Hrc]; simpl; [done |].
  split; [done |]. intros [= ?]. done.
Qed.

Lemma effects_sent_ok_cases (run_process : list string → result Z)
    (exe user_path out_path : string) (ref_stats : gmap string Q) (io : effects_io) :
  effects_sent_ok run_process exe user_path out_path ref_stats io = true ↔
  ∃ src_stats,
    extract_stats io = Ok src_stats ∧
    run_process (effects_cmd exe user_path out_path src_stats ref_stats) = Ok 0 ∧
    out_exists io = true ∧
    out_size io ≤ MAX_FILE_SIZE_BYTES ∧
    deliver io = true.
Proof.
  unfold effects_sent_ok, effects_cmd.
  destruct (extract_stats io) as [src | e];
    [| split; [done | by intros (? & ? & _)]].
  change (completed (Ok src)) with (Some src).
  change (Some src ≫= ?f) with (f src). cbv beta.
  remember (_compute_eq_params src ref_stats) as p eqn:Hp.
  destruct p as [[b c] sat].
  pose proof (apply_eq_filter_completed run_process exe user_path out_path b c sat)
    as Hrun.
  destruct (completed (_apply_eq_filter run_process exe user_path out_path b c sat))
    as [[] |].
  - change (Some () ≫= ?f) with (f ()). cbv beta.
    split.
    + intros Hok. exists src. rewrite <- Hp. simpl.
      split; [done |]. split; [by apply Hrun |].
      destruct (out_exists io); [| done].
      destruct (Z.ltb_spec MAX_FILE_SIZE_BYTES (out_size io)); [done |].
      by destruct (deliver io).
    + intros (src' & [= <-] & _ & -> & Hsize & ->).
      by destruct (Z.ltb_spec MAX_FILE_SIZE_BYTES (out_size io)); [lia |].
  - split; [done |].
    intros (src' & [= <-] & Hcmd & _). rewrite <- Hp in Hcmd. simpl in Hcmd.
    apply Hrun in Hcmd. done.
Qed.

(** X11.  The effect is charged only after it was delivered.  The run
    reaches [sent_ok = True] exactly when the statistics were extracted,
    the transcoder exited with 0, the output exists and is not larger than
    50 MiB, the video or the fallback document was sent and the closing
    reply went through.  In every other case the store is left as it was;
    when it is reached and the user is known, the store is the one
    [_finalize_effect_entitlement] leaves for the planned kind, and an
    exception of that call is swallowed. *)
Theorem effect_charged_only_when_delivered (run_process : list string → result Z)
    (exe user_path out_path : string) (ref_stats : gmap string Q) (io : effects_io)
    (kind : option string) (effective_user : option user) (today : string)
    (s : gmap string json) :
  (apply_effects run_process exe user_path out_path ref_stats io kind
     effective_user today s).1
    = Ok (effects_sent_ok run_process exe user_path out_path ref_stats io) ∧
  (effects_sent_ok run_process exe user_path out_path ref_stats io = true ↔
   ∃ src_stats,
     extract_stats io = Ok src_stats ∧
     run_process (effects_cmd exe user_path out_path src_stats ref_stats) = Ok 0 ∧
     out_exists io = true ∧
     out_size io ≤ MAX_FILE_SIZE_BYTES ∧
     deliver io = true) ∧
  (deliver io = true ↔
   (video_try1 io = Sent ∨
    video_try1 io = SendTimedOut ∧
      (video_try2 io = Sent ∨ video_try2 io = SendTimedOut ∧ document_try io = Sent)) ∧
   done_reply io = true) ∧
  (effects_sent_ok run_process exe user_path out_path ref_stats io = false
     ∨ effective_user = None →
   (apply_effects run_process exe user_path out_path ref_stats io kind
      effective_user today s).2 = s) ∧
  (∀ sender,
     effects_sent_ok run_process exe user_path out_path ref_stats io = true →
     effective_user = Some sender →
     (apply_effects run_process exe user_path out_path ref_stats io kind
        effective_user today s).2
     = (_finalize_effect_entitlement (id sender) kind today s).2).
Proof.
  split; [| split; [apply effects_sent_ok_cases | split; [apply deliver_cases |]]].
  - unfold apply_effects. ledger_unfold.
    destruct (effects_sent_ok _ _ _ _ _ _); [| done].
    destruct effective_user; [| done]. unfold swallow.
    by destruct (_finalize_effect_entitlement _ _ _ _).
  - split.
    + intros Hno. unfold apply_effects. ledger_unfold.
      destruct (effects_sent_ok _ _ _ _ _ _); [| done].
      destruct Hno as [? | ->]; done.
    + intros sender Hok ->. unfold apply_effects. ledger_unfold. rewrite Hok.
      unfold swallow. by destruct (_finalize_effect_entitlement _ _ _ _).
Qed.

Lemma effect_charged_only_when_delivered_witness :
  (apply_effects (λ _, Ok 0) "ffmpeg" "user.mp4" "out.mp4" graded_stats smooth_io
     (Some "free") (Some {| id := 42 |}) "2024-05-01" ∅).2
  = (_finalize_effect_entitlement 42 (Some "free") "2024-05-01" ∅).2.
Proof.
  destruct (effect_charged_only_when_delivered (λ _, Ok 0) "ffmpeg" "user.mp4" "out.mp4"
              graded_stats smooth_io (Some "free") (Some {| id := 42 |}) "2024-05-01" ∅)
    as (_ & _ & _ & _ & Hcharged).
  apply (Hcharged {| id := 42 |}); reflexivity.
Defined.

(** *** What an operation leaves alone *)

Lemma touches_frame (users : list Z) (s s' : gmap string json) :
  touches users s s' →
  (∀ k, k ∉ str <$> users → s' !! k = s !! k) ∧
  (∀ k, is_Some (s !! k) → is_Some (s' !! k)).
Proof.
  induction 1 as [| u rec s' Hu _ [IH1 IH2]]; [done |]. split.
  - intros k Hk. rewrite lookup_insert_ne; [by apply IH1 |].
    intros <-. apply Hk. by apply list_elem_of_fmap_2.
  - intros k Hk. rewrite lookup_insert. case_decide; [by eexists | by apply IH2].
Qed.

Lemma run_op_touches (op : ledger_op) (s : gmap string json) :
  touches (op_users op) s (run_op op s).
Proof.
  destruct op as [u d now | u a | u now today | u kind today | u | new ref]; simpl.
  - unfold _grant_premium. destruct (d <=? 0); [constructor |].
    ledger_unfold. destruct (int_or 0 _); simpl; repeat constructor.
  - unfold _add_credits. destruct (a <=? 0); [constructor |].
    ledger_unfold. destruct (int_or 0 _); simpl; repeat constructor.
  - rewrite plan_read_only. constructor.
  - unfold _finalize_effect_entitlement.
    destruct (negb (known_kind kind)); [constructor |].
    destruct (kind_is kind "premium"); [constructor |].
    ledger_unfold.
    destruct (py_ne_str _ today); destruct (int_or 0 _) as [n |]; simpl;
      try constructor.
    all: destruct (kind_is kind "free"); simpl; [repeat constructor |].
    all: destruct (kind_is kind "credit"); simpl; [| repeat constructor].
    all: destruct (_get_credits _) as [c |]; simpl; repeat constructor.
  - unfold _bump_success_and_should_show_ad.
    destruct (AD_EVERY_SUCCESS_COUNT <=? 0); [constructor |].
    ledger_unfold. destruct (int_or 0 _); simpl; repeat constructor.
  - unfold _apply_referral.
    destruct (_ || _); [constructor |]. destruct (new =? ref); [constructor |].
    ledger_unfold. destruct (truthy _); [constructor |].
    destruct (int_or 0 _) as [rc |]; simpl; [| constructor].
    destruct (_get_credits _) as [cr |]; simpl; [| constructor].
    destruct (_get_credits _) as [cn |]; simpl; [| constructor].
    apply touches_insert; [set_solver |].
    apply touches_insert; [set_solver |].
    apply touches_insert; [set_solver |]. constructor.
Qed.

(** X12.  A ledger operation changes no record but those of the users it
    is called for, and it never removes an entry of the store; the same
    holds for any sequence of operations. *)
Theorem operations_touch_only_their_users :
  (∀ op s k, k ∉ str <$> op_users op → run_op op s !! k = s !! k) ∧
  (∀ op s k, is_Some (s !! k) → is_Some (run_op op s !! k)) ∧
  (∀ ops s k, (∀ op, op ∈ ops → k ∉ str <$> op_users op) →
     run_ops ops s !! k = s !! k) ∧
  (∀ ops s k, is_Some (s !! k) → is_Some (run_ops ops s !! k)).
Proof.
  split; [| split; [| split]].
  - intros op s k Hk.
    by apply (proj1 (touches_frame _ _ _ (run_op_touches op s))).
  - intros op s k Hk.
    by apply (proj2 (touches_frame _ _ _ (run_op_touches op s))).
  - induction ops as [| op ops IH]; intros s k Hk; [done |]. simpl.
    rewrite IH by (intros op' Hop'; apply Hk; by right).
    apply (proj1 (touches_frame _ _ _ (run_op_touches op s))).
    apply Hk. by left.
  - induction ops as [| op ops IH]; intros s k Hk; [done |]. simpl.
    apply IH. by apply (proj2 (touches_frame _ _ _ (run_op_touches op s))).
Qed.

Lemma operations_touch_only_their_users_witness :
  run_op (ApplyReferral 42 43) store_quota_spent !! "7"
  = store_quota_spent !! "7".
Proof.
  apply (proj1 operations_touch_only_their_users (ApplyReferral 42 43)).
  simpl. intros Hin. repeat (apply elem_of_cons in Hin as [Hin | Hin]; [done |]).
  by apply elem_of_nil in Hin.
Defined.

Lemma keeps_field (f : string) (s s' : gmap string json) :
  keeps f s s' → ∀ u, rec_get (user_record s' u) f = rec_get (user_record s u) f.
Proof.
  induction 1 as [| v rec s' _ IH Hrec]; intros u; [done |].
  destruct (decide (v = u)) as [-> | Hne].
  - rewrite user_record_insert_eq, Hrec. apply IH.
  - rewrite user_record_insert_ne by done. apply IH.
Qed.

Ltac keeps_step :=
  apply keeps_insert;
  [ | rewrite ?rec_get_insert_ne by set_solver; try reflexivity ].

Lemma run_op_keeps (op : ledger_op) (f : string) (s : gmap string json) :
  f ∉ op_fields op → keeps f s (run_op op s).
Proof.
  intros Hf.
  destruct op as [u d now | u a | u now today | u kind today | u | new ref]; simpl in *.
  - unfold _grant_premium. destruct (d <=? 0); [constructor |].
    ledger_unfold. destruct (int_or 0 _); simpl; [| constructor].
    keeps_step. constructor.
  - unfold _add_credits. destruct (a <=? 0); [constructor |].
    ledger_unfold. destruct (int_or 0 _); simpl; [| constructor].
    keeps_step. constructor.
  - rewrite plan_read_only. constructor.
  - unfold _finalize_effect_entitlement.
    destruct (negb (known_kind kind)); [constructor |].
    destruct (kind_is kind "premium"); [constructor |].
    ledger_unfold.
    destruct (py_ne_str _ today); destruct (int_or 0 _) as [n |]; simpl;
      try constructor.
    all: destruct (kind_is kind "free"); simpl; [keeps_step; constructor |].
    all: destruct (kind_is kind "credit"); simpl; [| keeps_step; constructor].
    all: destruct (_get_credits _) as [c |]; simpl; [| constructor].
    all: keeps_step; constructor.
  - unfold _bump_success_and_should_show_ad.
    destruct (AD_EVERY_SUCCESS_COUNT <=? 0); [constructor |].
    ledger_unfold. destruct (int_or 0 _); simpl; [| constructor].
    keeps_step. constructor.
  - unfold _apply_referral.
    destruct (_ || _); [constructor |].
    destruct (Z.eqb_spec new ref) as [| Hne]; [constructor |].
    ledger_unfold. destruct (truthy _); [constructor |].
    destruct (int_or 0 _) as [rc |]; simpl; [| constructor].
    destruct (_get_credits _) as [cr |]; simpl; [| constructor].
    destruct (_get_credits _) as [cn |]; simpl; [| constructor].
    apply keeps_insert; [apply keeps_insert; [apply keeps_insert; [constructor |] |] |].
    + by rewrite rec_get_insert_ne by set_solver.
    + by rewrite !rec_get_insert_ne by set_solver.
    + rewrite user_record_insert_ne, user_record_insert_eq by done.
      by rewrite rec_get_insert_ne by set_solver.
Qed.

Lemma operations_field_frame (op : ledger_op) (f : string) (s : gmap string json) :
  f ∉ op_fields op →
  ∀ u, rec_get (user_record (run_op op s) u) f = rec_get (user_record s u) f.
Proof. intros Hf. apply keeps_field. by apply run_op_keeps. Qed.

(** X13.  Every ledger operation writes only its own fields: in the record
    of every user, a field outside [op_fields] is after the operation what
    it was before.  So [premium_until] changes by grants alone,
    [referred_by] and [ref_count] by referrals alone, [success_count] by
    counted successes alone, and the free quota by finalizing alone. *)
Theorem operations_write_only_their_fields (op : ledger_op) (f : string)
    (s : gmap string json) (Hf : f ∉ op_fields op) :
  ∀ u, rec_get (user_record (run_op op s) u) f = rec_get (user_record s u) f.
Proof. by apply operations_field_frame. Qed.

Lemma operations_write_only_their_fields_witness :
  rec_get (user_record (run_op (Finalize 42 (Some "credit") "2024-05-02")
                          store_quota_spent) 42) "premium_until"
  = rec_get (user_record store_quota_spent 42) "premium_until".
Proof.
  apply (operations_write_only_their_fields
           (Finalize 42 (Some "credit") "2024-05-02") "premium_until").
  simpl. set_solver.
Defined.

Lemma premium_forward_step (op : ledger_op) (s : gmap string json) (u cur : Z) :
  int_or 0 (premium_until_of s u) = Ok cur →
  ∃ cur', int_or 0 (premium_until_of (run_op op s) u) = Ok cur' ∧ cur ≤ cur'.
Proof.
  intros Hcur.
  destruct (is_grant op) eqn:Hgrant.
  - destruct op as [v d now | | | | |]; try done. simpl.
    destruct (Z.leb_spec d 0) as [Hd | Hd].
    { rewrite grant_premium_noop by done. exists cur. split; [done | lia]. }
    destruct (decide (v = u)) as [-> | Hne].
    + rewrite (grant_premium_run u d now cur s Hd Hcur). simpl.
      exists (Z.max now cur + d). split; [| lia].
      unfold premium_until_of. by rewrite user_record_insert_eq, rec_get_insert_eq.
    + exists cur. split; [| lia]. rewrite <- Hcur. f_equal.
      unfold premium_until_of, user_record. f_equal. f_equal.
      apply grant_premium_frame. intros E. by apply str_inj in E.
  - exists cur. split; [| lia]. rewrite <- Hcur. f_equal.
    apply (operations_field_frame op "premium_until" s).
    destruct op; try done; simpl; set_solver.
Qed.

(** X14.  The premium expiry of a user never moves back: after any
    sequence of ledger operations it is at least what it was, and a
    sequence without a grant leaves it exactly as it was. *)
Theorem premium_never_shortened (ops : list ledger_op) (s : gmap string json)
    (u cur : Z) (Hcur : int_or 0 (premium_until_of s u) = Ok cur) :
  (∃ cur', int_or 0 (premium_until_of (run_ops ops s) u) = Ok cur' ∧ cur ≤ cur') ∧
  (Forall (λ op, is_grant op = false) ops →
   premium_until_of (run_ops ops s) u = premium_until_of s u).
Proof.
  split.
  - revert s cur Hcur. induction ops as [| op ops IH]; intros s cur Hcur; simpl.
    { exists cur. split; [done | lia]. }
    destruct (premium_forward_step op s u cur Hcur) as (c1 & H1 & Hle1).
    destruct (IH _ c1 H1) as (c2 & H2 & Hle2). exists c2. split; [done | lia].
  - clear Hcur. revert s. induction ops as [| op ops IH]; intros s Hall; [done |].
    apply Forall_cons in Hall as [Hop Hall]. simpl. rewrite IH by done.
    apply (operations_field_frame op "premium_until" s).
    destruct op; try done; simpl; set_solver.
Qed.

Lemma premium_never_shortened_witness :
  ∃ cur', int_or 0 (premium_until_of
                      (run_ops [GrantPremium 42 10 100; AddCredits 42 5;
                                GrantPremium 42 10 105] ∅) 42) = Ok cur' ∧
          0 ≤ cur'.
Proof.
  destruct (premium_never_shortened
              [GrantPremium 42 10 100; AddCredits 42 5; GrantPremium 42 10 105]
              ∅ 42 0) as [Hforward _]; [reflexivity |].
  exact Hforward.
Defined.

(** *** Loading a store file that can be reached *)

(** X16.  Once [exists()] has answered, [_load_user_store_sync] returns a
    mapping for every state of the file and every behaviour of the decoder,
    and the mapping is empty when the file is missing, when reading it
    raises, when it is empty, when the decoder raises on its text, and when
    the text decodes to anything but an object; text that decodes to an
    object loads as that object. *)
Theorem load_tolerates_unreadable_content (json_loads : string → result json)
    (f : store_file) (found : bool) (Hexists : path_exists f = Ok found) :
  (∃ m, _load_user_store_sync json_loads f = Ok m) ∧
  (found = false → _load_user_store_sync json_loads f = Ok ∅) ∧
  (∀ e, read_text f = Raise e → _load_user_store_sync json_loads f = Ok ∅) ∧
  (read_text f = Ok "" → _load_user_store_sync json_loads f = Ok ∅) ∧
  (∀ raw e, read_text f = Ok raw → json_loads raw = Raise e →
     _load_user_store_sync json_loads f = Ok ∅) ∧
  (∀ raw v, read_text f = Ok raw → json_loads raw = Ok v →
     (∀ m, v ≠ JObj m) → _load_user_store_sync json_loads f = Ok ∅) ∧
  (∀ raw m, found = true → read_text f = Ok raw → raw ≠ "" →
     json_loads raw = Ok (JObj m) → _load_user_store_sync json_loads f = Ok m).
Proof.
  unfold _load_user_store_sync. rewrite Hexists. clear Hexists.
  unfold try_except, mbind, mret, result_bind, result_ret.
  destruct f as [exists_answer [raw | e]], found; simpl.
  all: repeat split; try (by eexists); try done.
  all: try (destruct (String.eqb_spec raw ""); simpl;
            [by eexists | destruct (json_loads raw) as [[] |]; by eexists]).
  - by intros [= ->].
  - intros raw' e [= <-] Hraise. destruct (String.eqb raw ""); [done |].
    simpl. by rewrite Hraise.
  - intros raw' v [= <-] Hv Hobj. destruct (String.eqb raw ""); [done |].
    simpl. rewrite Hv. destruct v; try done. by destruct (Hobj m).
  - intros raw' m _ [= <-] Hne Hv.
    destruct (String.eqb_spec raw ""); [done |]. simpl. by rewrite Hv.
Qed.

Lemma load_tolerates_unreadable_content_witness :
  _load_user_store_sync (λ _, Raise JSONDecodeError) garbled_file = Ok ∅.
Proof.
  apply (proj1 (proj2 (proj2 (proj2 (proj2
           (load_tolerates_unreadable_content (λ _, Raise JSONDecodeError)
              garbled_file true eq_refl)))))
           "{oops" JSONDecodeError); reflexivity.
Defined.

(** *** Retry buttons *)

Lemma split_max_0 (sep : ascii) (s : string) : split_max sep s 0 = [s].
Proof. by destruct s. Qed.

Lemma retry_quality_of_data (q : string) :
  nth 2 (split_max "_" ("retry_video_" +:+ q) 2) EmptyString = q.
Proof. simpl. by rewrite split_max_0. Qed.

Lemma retry_video_run (q : string) (user_data : gmap string json) :
  truthy (rec_get user_data "last_url") = true →
  ∃ quality audio_lang,
    retry_callback (Some {| query_data := Some ("retry_video_" +:+ q) |}) user_data
    = (RetryVideo (rec_get user_data "last_url") quality audio_lang,
       <["last_quality" := JStr quality]> (<["last_action" := JStr "video"]> user_data)) ∧
    quality = (if String.eqb q "hd" || String.eqb q "sd" then q else "hd") ∧
    audio_lang ∈ ["orig"; "fr"; "en"].
Proof.
  intros Hurl. unfold retry_callback. rewrite Hurl. cbv [negb query_data].
  rewrite (prefix_of_app "retry_video_" q), (retry_quality_of_data q).
  eexists _, _. split; [reflexivity |]. split.
  - by destruct (String.eqb q "hd" || String.eqb q "sd").
  - destruct (rec_get _ "last_audio_lang") as [| | | | a | |]; try set_solver.
    destruct (String.eqb_spec a "orig") as [-> |]; [set_solver |].
    destruct (String.eqb_spec a "fr") as [-> |]; [set_solver |].
    destruct (String.eqb_spec a "en") as [-> |]; set_solver.
Qed.

(** X15.  The retry button [_action_keyboard] puts under a video carries
    the quality in its callback data, and [retry_callback] reads it back:
    with a saved link, pressing it runs the video again in the same
    quality when that was [hd] or [sd] and in [hd] otherwise, and the
    second button of the row runs the other quality.  Whatever the data
    after [retry_video_], the quality passed on is [hd] or [sd] and the
    audio language one of [orig], [fr], [en]; without a saved link nothing
    is run. *)
Theorem retry_button_round_trip (lang : string) (quality : option string)
    (user_data : gmap string json) :
  (∀ q, truthy (rec_get user_data "last_url") = true →
     ∃ quality' audio_lang user_data',
       retry_callback (Some {| query_data := Some ("retry_video_" +:+ q) |}) user_data
       = (RetryVideo (rec_get user_data "last_url") quality' audio_lang, user_data') ∧
       quality' = (if String.eqb q "hd" || String.eqb q "sd" then q else "hd") ∧
       rec_get user_data' "last_quality" = JStr quality' ∧
       audio_lang ∈ ["orig"; "fr"; "en"]) ∧
  (∀ row b, _action_keyboard lang "video" quality !! 0%nat = Some row → row !! 0%nat = Some b →
     label_key b = "retry_button" ∧
     ∃ q, callback_data b = "retry_video_" +:+ q ∧
          (if String.eqb q "hd" || String.eqb q "sd" then q else "hd")
          = (if kind_is quality "hd" || kind_is quality "sd"
             then default "hd" quality else "hd")) ∧
  (∀ row b, _action_keyboard lang "video" quality !! 0%nat = Some row → row !! 1%nat = Some b →
     (quality = Some "hd" ∧ callback_data b = "retry_video_" +:+ "sd") ∨
     (quality = Some "sd" ∧ callback_data b = "retry_video_" +:+ "hd")) ∧
  (∀ query, truthy (rec_get user_data "last_url") = false →
     retry_callback query user_data
     = (match query with Some _ => RetryNoUrl | None => RetryNothing end, user_data)).
Proof.
  split; [| split; [| split]].
  - intros q Hurl.
    destruct (retry_video_run q user_data Hurl) as (quality' & audio_lang & Hrun & Hq & Ha).
    eexists _, _, _. split; [exact Hrun |]. split; [done |].
    split; [by rewrite rec_get_insert_eq | done].
  - intros row b Hrow Hb. unfold _action_keyboard in Hrow. simpl in Hrow.
    injection Hrow as <-.
    destruct quality as [q |]; simpl in *.
    + destruct (String.eqb_spec q "hd") as [-> | Hhd]; simpl in *.
      { injection Hb as <-. split; [done |]. by exists "hd". }
      destruct (String.eqb_spec q "sd") as [-> | Hsd]; simpl in *.
      { injection Hb as <-. split; [done |]. by exists "sd". }
      injection Hb as <-. split; [done |]. simpl.
      destruct (String.eqb_spec q "") as [-> |]; [by exists "hd" |].
      exists q. split; [done |].
      destruct (String.eqb_spec q "hd"); [done |].
      by destruct (String.eqb_spec q "sd").
    + injection Hb as <-. split; [done |]. by exists "hd".
  - intros row b Hrow Hb. unfold _action_keyboard in Hrow. simpl in Hrow.
    injection Hrow as <-.
    destruct quality as [q |]; simpl in *; [| done].
    destruct (String.eqb_spec q "hd") as [-> | Hhd]; simpl in *.
    { injection Hb as <-. by left. }
    destruct (String.eqb_spec q "sd") as [-> | Hsd]; simpl in *; [| done].
    injection Hb as <-. by right.
  - intros [query |] Hurl; [| done]. unfold retry_callback. by rewrite Hurl.
Qed.

Lemma retry_button_round_trip_witness :
  ∃ quality' audio_lang user_data',
    retry_callback (Some {| query_data := Some ("retry_video_" +:+ "4k") |})
      (<["last_url" := JStr "https://example.org/v"]> ∅)
    = (RetryVideo (rec_get (<["last_url" := JStr "https://example.org/v"]> ∅) "last_url")
         quality' audio_lang, user_data') ∧
    quality' = (if String.eqb "4k" "hd" || String.eqb "4k" "sd" then "4k" else "hd") ∧
    rec_get user_data' "last_quality" = JStr quality' ∧
    audio_lang ∈ ["orig"; "fr"; "en"].
Proof.
  apply (proj1 (retry_button_round_trip "en" None
                  (<["last_url" := JStr "https://example.org/v"]> ∅)) "4k").
  reflexivity.
Defined.

(** ** Worked examples *)

(** With both free uses of the day spent and one credit left: [plan]
    answers [credit], finalizing takes the credit, and the next [plan] is
    denied. *)
Example last_credit_is_spent :
  let s0 := <["42" := JObj (<["credits" := JInt 1]> (user_record store_quota_spent 42))]>
              store_quota_spent in
  let s1 := snd (_finalize_effect_entitlement 42 (Some "credit") "2024-05-01" s0) in
  fst (_plan_effect_entitlement 42 1000 "2024-05-01" s0) = Ok (Some "credit") ∧
  rec_get (user_record s1 42) "credits" = JInt 0 ∧
  fst (_plan_effect_entitlement 42 1001 "2024-05-01" s1) = Ok None.
Proof. repeat split; vm_compute; reflexivity. Qed.

(** Active premium wins over the free quota, and expires with the clock. *)
Example premium_until_the_expiry :
  let s1 := snd (_grant_premium 42 PREMIUM_DURATION_SECONDS 1000 ∅) in
  premium_until_of s1 42 = JInt 2593000 ∧
  fst (_plan_effect_entitlement 42 2592999 "2024-05-30" s1) = Ok (Some "premium") ∧
  fst (_plan_effect_entitlement 42 2593000 "2024-05-31" s1) = Ok (Some "free").
Proof. repeat split; vm_compute; reflexivity. Qed.

(** A stored counter that is not a finite number makes [plan] raise. *)
Example plan_raises_on_nan :
  _plan_effect_entitlement 42 1000 "2024-05-01"
    (<["42" := JObj (<["premium_until" := JFloat NaN]> ∅)]> ∅)
  = (Raise ValueError, <["42" := JObj (<["premium_until" := JFloat NaN]> ∅)]> ∅).
Proof. reflexivity. Qed.

Example ad_every_fifth_success :
  let bump s := snd (_bump_success_and_should_show_ad 42 s) in
  fst (_bump_success_and_should_show_ad 42 (bump (bump (bump ∅)))) = Ok false ∧
  fst (_bump_success_and_should_show_ad 42 (bump (bump (bump (bump ∅))))) = Ok true.
Proof. split; vm_compute; reflexivity. Qed.

Example split_payload :
  split_on "|" "cx|premium_30d|12345" = ["cx"; "premium_30d"; "12345"] ∧
  split_on "|" "cx|" = ["cx"; ""] ∧
  split_on "|" "" = [""].
Proof. repeat split. Qed.

Example load_decoded_object :
  _load_user_store_sync (λ _, Ok (JObj store_quota_spent))
    {| path_exists := Ok true; read_text := Ok "{...}" |}
  = Ok store_quota_spent.
Proof. reflexivity. Qed.

Example fmt4_samples :
  fmt4 (35 # 100) = "0.3500" ∧ fmt4 (- (35 # 100)) = "-0.3500" ∧
  fmt4 (1 # 3) = "0.3333" ∧ fmt4 (16 # 10) = "1.6000" ∧
  fmt4 (- (1 # 100000)) = "-0.0000".
Proof. repeat split; vm_compute; reflexivity. Qed.

Example eq_filter_sample :
  eq_filter (- (35 # 100)) (16 # 10) (6 # 10)
  = "eq=brightness=-0.3500:contrast=1.6000:saturation=0.6000".
Proof. vm_compute. reflexivity. Qed.

Example eq_params_sample :
  _compute_eq_params graded_stats flat_stats
  = (_clamp ((128 - 128) / 255) (- (35 # 100)) (35 # 100), 7 # 10, 6 # 10).
Proof. vm_compute. reflexivity. Qed.

(** Four callbacks within a second and a half: the second comes too early,
    the third repeats the text already shown, the fourth is submitted. *)
Example debounce_sample :
  let render (lang kind : string) (d : gmap string json) :=
    match rec_get d "percent" with
    | JInt n => pretty n +:+ "%"
    | _ => "?%"
    end in
  let downloading n : gmap string json :=
    <["percent" := JInt n]> (<["status" := JStr "downloading"]> ∅) in
  run_hook render "en" "video"
    [ (5 # 1, downloading 10); (55 # 10, downloading 20);
      (61 # 10, downloading 10); (62 # 10, downloading 30);
      (63 # 10, <["status" := JStr "finished"]> ∅) ]
    hook_init
  = [ (5 # 1, "10%"); (62 # 10, "30%") ].
Proof. vm_compute. reflexivity. Qed.
